(** * Outline extraction: a shallow embedding of [extract_outline.py]

    The development follows the Python module function by function:
    [clean], [is_structural_heading], [is_body_text], [get_heading_level],
    [analyze_fonts] and the post-extraction part of [extract_outline]
    (everything after [all_lines] has been collected from the PDF).

    Modelling choices.
    - A Python [str] is a [string]; a character is read as the code point
      with the same number (U+0000 .. U+00FF).  On that range Python's
      notions of white space, decimal digit and lower-casing are the ones
      written out below.
    - A font size is a rational number ([Q]); [round(size, 1)] is the
      nearest multiple of one tenth, ties going to the even neighbour.
    - [size_counts] is an association list in insertion order, as a Python
      [dict] iterates; [sorted] is a stable insertion sort.
    - [seen] is a finite set of strings ([gset string]). *)

From Stdlib Require Import QArith Qabs Ascii.
From stdpp Require Import base list strings gmap sets sorting.
From Stdlib Require Import Lia.

#[local] Open Scope Z_scope.
#[local] Arguments String.append !_ _ / : simpl nomatch.

(** ** Characters *)

Definition code (c : ascii) : nat := nat_of_ascii c.

Definition in_range (lo hi : nat) (c : ascii) : bool :=
  (Nat.leb lo (code c)) && (Nat.leb (code c) hi).

(** [str.isspace] / the regex class [\s] on code points below 256. *)
Definition is_space (c : ascii) : bool :=
  in_range 9 13 c || in_range 28 32 c
  || Nat.eqb (code c) 133 || Nat.eqb (code c) 160.

(** The regex class [\d] on code points below 256. *)
Definition is_digit (c : ascii) : bool := in_range 48 57 c.

(** The regex class [[A-Z]]. *)
Definition is_upper_AZ (c : ascii) : bool := in_range 65 90 c.

(** [str.lower] on one code point below 256. *)
Definition lower (c : ascii) : ascii :=
  if is_upper_AZ c
     || (in_range 192 222 c && negb (Nat.eqb (code c) 215))
  then ascii_of_nat (code c + 32) else c.

Definition ascii_eqb (a b : ascii) : bool := Ascii.eqb a b.

(** ** Strings *)

Definition len (s : string) : nat := String.length s.

Fixpoint lower_str (s : string) : string :=
  match s with
  | EmptyString => EmptyString
  | String c s' => String (lower c) (lower_str s')
  end.

(** [s.startswith(p)] *)
Fixpoint startswith (p s : string) : bool :=
  match p with
  | EmptyString => true
  | String a p' =>
      match s with
      | EmptyString => false
      | String b s' => ascii_eqb a b && startswith p' s'
      end
  end.

(** [s.endswith(p)]: some suffix of [s] is [p]. *)
Fixpoint endswith (p s : string) : bool :=
  String.eqb p s ||
  match s with
  | EmptyString => false
  | String _ s' => endswith p s'
  end.

(** Trying a test at every start position, as [re.search] and [in] do. *)
Fixpoint anywhere (m : string → bool) (s : string) : bool :=
  m s ||
  match s with
  | EmptyString => false
  | String _ s' => anywhere m s'
  end.

(** [p in s] *)
Definition contains (p s : string) : bool := anywhere (startswith p) s.

(** [any(p in s for p in ps)] *)
Definition any_in (ps : list string) (s : string) : bool :=
  existsb (fun p => contains p s) ps.

(** ** White space: [strip] and [re.sub(r'\s+', ' ', _)] *)

Fixpoint lstrip (s : string) : string :=
  match s with
  | EmptyString => EmptyString
  | String c s' => if is_space c then lstrip s' else s
  end.

Fixpoint rstrip (s : string) : string :=
  match s with
  | EmptyString => EmptyString
  | String c s' =>
      match rstrip s' with
      | EmptyString => if is_space c then EmptyString else String c EmptyString
      | r => String c r
      end
  end.

Definition strip (s : string) : string := rstrip (lstrip s).

Definition starts_space (s : string) : bool :=
  match s with
  | String c _ => is_space c
  | EmptyString => false
  end.

(** Every maximal run of white space becomes one blank: a white-space
    character is dropped when another one follows it, and is replaced by
    a blank when it is the last of its run. *)
Fixpoint sub_spaces (s : string) : string :=
  match s with
  | EmptyString => EmptyString
  | String c s' =>
      if is_space c
      then if starts_space s' then sub_spaces s'
           else String " " (sub_spaces s')
      else String c (sub_spaces s')
  end.

(** [clean(text)] *)
Definition clean (t : string) : string := sub_spaces (strip t).

(** [" ".join(ts)] *)
Fixpoint join_sp (ts : list string) : string :=
  match ts with
  | [] => ""
  | [t] => t
  | t :: ts' => t +:+ " " +:+ join_sp ts'
  end.

(** ** Regular expressions

    The patterns of the module are built from a handful of pieces.  A
    matcher consumes a prefix of its input and returns the rest.  [many1]
    is greedy; in every pattern below the piece that follows a [many1]
    starts with a character outside its class, so giving characters back
    could never help.  *)

Definition matcher := string → option string.

Fixpoint lit (p s : string) : option string :=
  match p with
  | EmptyString => Some s
  | String a p' =>
      match s with
      | EmptyString => None
      | String b s' => if ascii_eqb a b then lit p' s' else None
      end
  end.

(** A literal under [re.I]. *)
Fixpoint lit_i (p s : string) : option string :=
  match p with
  | EmptyString => Some s
  | String a p' =>
      match s with
      | EmptyString => None
      | String b s' =>
          if ascii_eqb (lower a) (lower b) then lit_i p' s' else None
      end
  end.

Definition one (f : ascii → bool) : matcher := fun s =>
  match s with
  | String c s' => if f c then Some s' else None
  | EmptyString => None
  end.

Fixpoint skip (f : ascii → bool) (s : string) : string :=
  match s with
  | String c s' => if f c then skip f s' else s
  | EmptyString => EmptyString
  end.

Definition many1 (f : ascii → bool) : matcher := fun s =>
  match s with
  | String c s' => if f c then Some (skip f s') else None
  | EmptyString => None
  end.

Definition seq (m1 m2 : matcher) : matcher := fun s =>
  match m1 s with
  | Some r => m2 r
  | None => None
  end.

Definition alt (m1 m2 : matcher) : matcher := fun s =>
  match m1 s with
  | Some r => Some r
  | None => m2 s
  end.

(** [$]: the end of the string, or just before a final newline. *)
Definition eol : matcher := fun s =>
  match s with
  | EmptyString => Some s
  | String c EmptyString => if Nat.eqb (code c) 10 then Some s else None
  | _ => None
  end.

Definition re_match (m : matcher) (s : string) : bool :=
  match m s with Some _ => true | None => false end.

Definition re_search (m : matcher) (s : string) : bool :=
  anywhere (re_match m) s.

(** ** The data *)

(** One element of [all_lines]. *)
Record line := Line {
  text : string;
  size : Q;
  bold : bool;
  page : Z
}.

(** The dictionary returned by [analyze_fonts]. *)
Record font_stats := FontStats {
  large_size : Q;
  medium_size : Q;
  body_size : Q
}.

Inductive level := H1 | H2 | H3 | H4.

(** One element of [outline]. *)
Record entry := Entry {
  e_level : level;
  e_text : string;
  e_page : Z
}.

(** The dictionary returned by [extract_outline]. *)
Record result := Result {
  title : string;
  outline : list entry
}.

#[global] Instance level_eq_dec : EqDecision level.
Proof. solve_decision. Defined.

#[global] Instance entry_eq_dec : EqDecision entry.
Proof. solve_decision. Defined.

(** [a >= b] on sizes. *)
Definition size_ge (a b : Q) : bool := Qle_bool b a.

(** ** [is_structural_heading] *)

(** [^(Summary|Background|Timeline|Milestones)$] with [re.I] *)
Definition re_main_section : matcher :=
  alt (seq (lit_i "Summary") eol)
 (alt (seq (lit_i "Background") eol)
 (alt (seq (lit_i "Timeline") eol)
      (seq (lit_i "Milestones") eol))).

(** The classes [[A-C]] and [[IVX]] under [re.I]. *)
Definition is_A_to_C (c : ascii) : bool := in_range 97 99 (lower c).
Definition is_IVX (c : ascii) : bool :=
  ascii_eqb (lower c) "i" || ascii_eqb (lower c) "v" || ascii_eqb (lower c) "x".

(** [^(Appendix [A-C]:|Phase [IVX]+:|The Business Plan)] with [re.I] *)
Definition re_appendix_phase : matcher :=
  alt (seq (lit_i "Appendix ") (seq (one is_A_to_C) (lit ":")))
 (alt (seq (lit_i "Phase ") (seq (many1 is_IVX) (lit ":")))
      (lit_i "The Business Plan")).

(** [^(Approach and|Evaluation and)] with [re.I] *)
Definition re_approach : matcher :=
  alt (lit_i "Approach and") (lit_i "Evaluation and").

(** [^\d+\.\s+[A-Z]] *)
Definition re_numbered : matcher :=
  seq (many1 is_digit) (seq (lit ".") (seq (many1 is_space) (one is_upper_AZ))).

Definition principle_patterns : list string :=
  [ "Equitable access"; "Shared decision-making"; "Shared governance";
    "Shared funding"; "Local points"; "Access:"; "Guidance and Advice:";
    "Training:"; "Provincial Purchasing"; "Technological Support:" ].

Definition is_structural_heading (text : string) : bool :=
  let text := strip text in
  if re_match re_main_section text then true
  else if re_match re_appendix_phase text then true
  else if re_match re_approach text then true
  else if re_match re_numbered text then true
  else if any_in principle_patterns text then true
  else if startswith "For each" text && endswith ":" text then true
  else if contains "Ontario" text && contains "Digital Library" text
          && Nat.ltb 15 (len text) then true
  else if contains "Critical Component" text
          || contains "Road Map to Prosperity" text then true
  else if startswith "What could the ODL" text then true
  else false.

(** ** [is_body_text] *)

Definition prose_phrases : list string :=
  [ "the purpose of this"; "will be expected to"; "must be received by";
    "please note that"; "if you require"; "specifically,"; "given the";
    "for example,"; "however,"; "although"; "in addition to" ].

(** [\d{4}] *)
Definition re_four_digits : matcher :=
  seq (one is_digit) (seq (one is_digit) (seq (one is_digit) (one is_digit))).

(** [@|\d{4}|phone|email|fax|mail] *)
Definition re_contact : matcher :=
  alt (lit "@") (alt re_four_digits
 (alt (lit "phone") (alt (lit "email") (alt (lit "fax") (lit "mail"))))).

Definition is_body_text (text : string) : bool :=
  let text := strip text in
  if Nat.ltb 100 (len text) then true
  else if endswith "." text && Nat.ltb 20 (len text) then true
  else if any_in prose_phrases (lower_str text) then true
  else if re_search re_contact (lower_str text) then true
  else if startswith "-" text && Nat.ltb 30 (len text) then true
  else false.

(** ** [get_heading_level] *)

(** [^\d+\.] *)
Definition re_number_dot : matcher := seq (many1 is_digit) (lit ".").

Definition h3_patterns : list string :=
  [ "Equitable access"; "Shared decision"; "Shared governance";
    "Shared funding"; "Local points"; "Access:"; "Guidance";
    "Training:"; "Provincial"; "Technological"; "What could" ].

Definition get_heading_level (text : string) (size : Q) (fs : font_stats)
  : option level :=
  let text := strip text in
  if size_ge size (large_size fs)
     && (contains "Digital Library" text || contains "Critical Component" text)
  then Some H1
  else if String.eqb text "Summary" || String.eqb text "Background"
          || startswith "The Business Plan" text
          || startswith "Approach and" text
          || startswith "Evaluation and" text
          || startswith "Appendix" text
  then Some H2
  else if startswith "Timeline" text || startswith "Milestones" text
          || startswith "Phase" text || re_match re_number_dot text
          || any_in h3_patterns text
  then Some H3
  else if startswith "For each" text && endswith ":" text
  then Some H4
  else if size_ge size (large_size fs) then Some H1
  else if size_ge size (medium_size fs) then Some H2
  else None.

(** ** [analyze_fonts] *)

(** The integer nearest to [a / d] for [d > 0], ties to the even one. *)
Definition round_half_even (a d : Z) : Z :=
  let f := a / d in
  let r2 := 2 * (a mod d) in
  if r2 <? d then f
  else if d <? r2 then f + 1
  else if Z.even f then f else f + 1.

(** [round(x, 1)] *)
Definition round1 (x : Q) : Q :=
  Qmake (round_half_even (Qnum x * 10) (Zpos (Qden x))) 10.

(** [size_counts[k] += 1] on a [defaultdict(int)]: a known key keeps its
    place, a new key goes last. *)
Fixpoint incr (k : Q) (d : list (Q * Z)) : list (Q * Z) :=
  match d with
  | [] => [(k, 1)]
  | (k', n) :: d' =>
      if Qeq_bool k' k then (k', n + 1) :: d' else (k', n) :: incr k d'
  end.

Definition count_sizes (sizes : list Q) : list (Q * Z) :=
  fold_left (fun d s => incr (round1 s) d) sizes [].

(** The sort key [(-x[1], -x[0])] and the tuple order [<] on it. *)
Definition sort_key (x : Q * Z) : Z * Q := (- x.2, Qopp x.1).

Definition key_lt (a b : Z * Q) : bool :=
  if a.1 =? b.1 then negb (Qle_bool b.2 a.2) else a.1 <? b.1.

(** A stable sort: an element goes in front of the first one that is not
    smaller than it. *)
Fixpoint insert_by_key (x : Q * Z) (l : list (Q * Z)) : list (Q * Z) :=
  match l with
  | [] => [x]
  | y :: l' =>
      if key_lt (sort_key y) (sort_key x) then y :: insert_by_key x l'
      else x :: l
  end.

Fixpoint sorted_by_key (l : list (Q * Z)) : list (Q * Z) :=
  match l with
  | [] => []
  | x :: l' => insert_by_key x (sorted_by_key l')
  end.

(** [sorted_sizes[i][0] if len(sorted_sizes) > i else dflt] *)
Definition tier (sorted_sizes : list (Q * Z)) (i : nat) (dflt : Q) : Q :=
  match sorted_sizes !! i with
  | Some x => x.1
  | None => dflt
  end.

Definition analyze_fonts (lines : list line) : font_stats :=
  let sizes := map size lines in
  let size_counts := count_sizes sizes in
  let sorted_sizes := sorted_by_key size_counts in
  {| large_size := tier sorted_sizes 0 (14 # 1);
     medium_size := tier sorted_sizes 1 (12 # 1);
     body_size := tier sorted_sizes 2 (11 # 1) |}.

(** ** [extract_outline], from [all_lines] on *)

Definition title_candidate (fs : font_stats) (l : line) : bool :=
  (page l =? 1) && size_ge (size l) (medium_size fs)
  && negb (is_body_text (text l)).

Definition page1_large (fs : font_stats) (all_lines : list line) : list line :=
  take 3 (List.filter (title_candidate fs) all_lines).

(** The state of the outline loop: [outline] and [seen]. *)
Definition scan_state : Type := list entry * gset string.

(** One iteration of [for line in all_lines]. *)
Definition scan_step (fs : font_stats) (st : scan_state) (l : line)
  : scan_state :=
  let text := clean (text l) in
  if bool_decide (text ∈ st.2) || Nat.ltb (len text) 4
     || is_body_text text || negb (is_structural_heading text)
  then st
  else
    match get_heading_level text (size l) fs with
    | Some lv =>
        (st.1 ++ [ {| e_level := lv; e_text := text; e_page := page l |} ],
         {[ text ]} ∪ st.2)
    | None => st
    end.

Definition scan (fs : font_stats) (ls : list line) (st : scan_state)
  : scan_state :=
  fold_left (scan_step fs) ls st.

Definition extract_outline (all_lines : list line) : result :=
  let fs := analyze_fonts all_lines in
  let title := clean (join_sp (map text (page1_large fs all_lines))) in
  let st := scan fs all_lines ([], ∅) in
  {| title := if String.eqb title "" then "Untitled" else title;
     outline := st.1 |}.

Definition run (t : string) (s : Q) (p : Z) : line :=
  {| text := t; size := s; bold := false; page := p |}.

(** ** [extract_outline], the collection of [all_lines]

    [page.get_text("dict")] is read as data: a page is its list of blocks,
    a block has a list of lines or no "lines" key at all, and a line is
    its list of spans. *)

Record span := Span {
  span_text : string;
  span_size : Q;
  span_flags : Z
}.

Definition layout_line : Type := list span.
Definition block : Type := option (list layout_line).
Definition pdf_page : Type := list block.
Definition document : Type := list pdf_page.

(** [span["text"].strip()] as a condition: the stripped text is not empty. *)
Definition has_text (sp : span) : bool :=
  negb (String.eqb (strip (span_text sp)) "").

(** [max(...)] over a non-empty sequence: a later item replaces the
    current maximum only when it is strictly greater. *)
Definition max_size (first : Q) (rest : list Q) : Q :=
  fold_left (fun m s => if Qle_bool s m then m else s) rest first.

(** [span["flags"] & 16] as a condition. *)
Definition is_bold (sp : span) : bool :=
  negb (Z.land (span_flags sp) 16 =? 0).

(** The body of [for line in block["lines"]]: the run appended to
    [all_lines], if any. *)
Definition extract_line (page_num : nat) (spans : layout_line) : option line :=
  match spans with
  | [] => None
  | sp :: sps =>
      let text_parts := map span_text (List.filter has_text spans) in
      match text_parts with
      | [] => None
      | _ =>
          Some {| text := clean (join_sp text_parts);
                  size := max_size (span_size sp) (map span_size sps);
                  bold := existsb is_bold spans;
                  page := Z.of_nat page_num + 1 |}
      end
  end.

Definition block_lines (page_num : nat) (b : block) : list line :=
  match b with
  | None => []
  | Some ls => omap (extract_line page_num) ls
  end.

Definition page_lines (page_num : nat) (p : pdf_page) : list line :=
  concat (map (block_lines page_num) p).

(** [for page_num in range(len(doc))], from [page_num] on. *)
Fixpoint pages_lines (page_num : nat) (pages : list pdf_page) : list line :=
  match pages with
  | [] => []
  | p :: ps => page_lines page_num p ++ pages_lines (S page_num) ps
  end.

Definition collect_lines (doc : document) : list line := pages_lines 0 doc.

(** [extract_outline(pdf_path)] on an opened document. *)
Definition extract_outline_pdf (doc : document) : result :=
  extract_outline (collect_lines doc).

(** * Specification vocabulary and sample inputs *)

Definition StartsWith (p s : string) : Prop := ∃ r, s = p +:+ r.
Definition EndsWith (p s : string) : Prop := ∃ a, s = a +:+ p.
Definition Contains (p s : string) : Prop := ∃ a b, s = a +:+ p +:+ b.

(** Four decimal digits in a row. *)
Definition FourDigits (s : string) : Prop :=
  ∃ a d1 d2 d3 d4 b,
    s = a +:+ String d1 (String d2 (String d3 (String d4 b)))
    ∧ is_digit d1 = true ∧ is_digit d2 = true
    ∧ is_digit d3 = true ∧ is_digit d4 = true.

(** One or more decimal digits, then a period. *)
Definition NumberDot (s : string) : Prop :=
  ∃ d ds r, s = String d (ds +:+ String "." r)
    ∧ is_digit d = true ∧ skip is_digit ds = "".

Fixpoint ends_space (s : string) : bool :=
  match s with
  | EmptyString => false
  | String c EmptyString => is_space c
  | String _ s' => ends_space s'
  end.

(** Neither the first nor the last character is white space. *)
Definition trimmed (s : string) : Prop :=
  starts_space s = false ∧ ends_space s = false.

(** A text is normalized when cleaning it changes nothing. *)
Definition normalized (t : string) : Prop := clean t = t.

(** What one run contributes when its text has not been seen before: the
    three gates of the loop, then the level. *)
Definition heading_of (fs : font_stats) (l : line) : option entry :=
  let t := clean (text l) in
  if Nat.ltb (len t) 4 || is_body_text t || negb (is_structural_heading t)
  then None
  else
    match get_heading_level t (size l) fs with
    | Some lv => Some {| e_level := lv; e_text := t; e_page := page l |}
    | None => None
    end.

(** [seen] holds exactly the texts of [outline], and no text occurs twice. *)
Definition scan_inv (st : scan_state) : Prop :=
  st.2 = list_to_set (e_text <$> st.1) ∧ NoDup (e_text <$> st.1).

Definition contact_words : list string := ["phone"; "email"; "fax"; "mail"].

(** The five rejection rules of the filter, as the specification words
    them; a phrase or word is found "case-insensitively" when it occurs in
    the lower-cased text. *)
Inductive body_rule (t : string) : Prop :=
  | too_long : (100 < len t)%nat → body_rule t
  | sentence : EndsWith "." t → (20 < len t)%nat → body_rule t
  | prose p : p ∈ prose_phrases → Contains p (lower_str t) → body_rule t
  | contact_at : Contains "@" t → body_rule t
  | contact_year : FourDigits t → body_rule t
  | contact_word w : w ∈ contact_words → Contains w (lower_str t) → body_rule t
  | long_bullet : StartsWith "-" t → (30 < len t)%nat → body_rule t.

Definition long_numbered_text : string :=
  "1. Introduction to the province wide digital library programme and its governance model including the funding and the purchasing of licences for users".

Definition road_map_lines : list line :=
  [ run "Road Map to Prosperity" (10 # 1) 1;
    run "An overview of the plan" (12 # 1) 1;
    run "and of the work ahead" (12 # 1) 1;
    run "for the coming years" (12 # 1) 1;
    run "Road Map to Prosperity" (14 # 1) 2;
    run "Closing remarks" (14 # 1) 2 ].

Definition three_page_lines : list line :=
  [ run "Summary" (14 # 1) 1;
    run "Some words of running text" (11 # 1) 1;
    run "1. Introduction" (13 # 1) 2;
    run "Timeline" (13 # 1) 3 ].

(** Two runs that differ at most in their bold flag. *)
Definition same_but_bold (a b : line) : Prop :=
  text a = text b ∧ size a = size b ∧ page a = page b.

Definition prose_only_lines : list line :=
  [ run "Some words of running text" (11 # 1) 2;
    run "and a few more of them" (11 # 1) 2 ].

#[local] Instance Qle_decision (a b : Q) : Decision (a <= b)%Q.
Proof.
  destruct (Qlt_le_dec b a) as [H|H]; [right; by apply Qlt_not_le | by left].
Defined.

(** The first three runs of page 1, in document order, whose size reaches
    the medium tier and whose normalized text the body-text filter lets
    through. *)
Definition first_three_candidates (fs : font_stats) (all_lines : list line)
  : list line :=
  take 3 (filter (fun l => page l = 1 ∧ (medium_size fs <= size l)%Q
                           ∧ is_body_text (clean (text l)) = false) all_lines).

(** The content rules of [get_heading_level], one per level. *)
Definition h1_rule (t : string) (s : Q) (fs : font_stats) : Prop :=
  (large_size fs <= s)%Q
  ∧ (Contains "Digital Library" t ∨ Contains "Critical Component" t).

Definition h2_rule (t : string) : Prop :=
  t = "Summary" ∨ t = "Background" ∨ StartsWith "The Business Plan" t
  ∨ StartsWith "Approach and" t ∨ StartsWith "Evaluation and" t
  ∨ StartsWith "Appendix" t.

Definition h3_rule (t : string) : Prop :=
  StartsWith "Timeline" t ∨ StartsWith "Milestones" t ∨ StartsWith "Phase" t
  ∨ NumberDot t ∨ ∃ p, p ∈ h3_patterns ∧ Contains p t.

Definition h4_rule (t : string) : Prop :=
  StartsWith "For each" t ∧ EndsWith ":" t.

(** First match wins: a rule applies only when no earlier one does. *)
Inductive level_rule (t : string) (s : Q) (fs : font_stats)
  : option level → Prop :=
  | by_h1 : h1_rule t s fs → level_rule t s fs (Some H1)
  | by_h2 : ¬ h1_rule t s fs → h2_rule t → level_rule t s fs (Some H2)
  | by_h3 : ¬ h1_rule t s fs → ¬ h2_rule t → h3_rule t →
            level_rule t s fs (Some H3)
  | by_h4 : ¬ h1_rule t s fs → ¬ h2_rule t → ¬ h3_rule t → h4_rule t →
            level_rule t s fs (Some H4)
  | by_large : ¬ h1_rule t s fs → ¬ h2_rule t → ¬ h3_rule t → ¬ h4_rule t →
               (large_size fs <= s)%Q → level_rule t s fs (Some H1)
  | by_medium : ¬ h1_rule t s fs → ¬ h2_rule t → ¬ h3_rule t → ¬ h4_rule t →
                ¬ (large_size fs <= s)%Q → (medium_size fs <= s)%Q →
                level_rule t s fs (Some H2)
  | by_nothing : ¬ h1_rule t s fs → ¬ h2_rule t → ¬ h3_rule t → ¬ h4_rule t →
                 ¬ (large_size fs <= s)%Q → ¬ (medium_size fs <= s)%Q →
                 level_rule t s fs None.

(** The level rules as the specification lists them: the numbered-section
    pattern and the vocabulary of the structural test decide H3. *)
Definition spec_h3 (t : string) : bool :=
  startswith "Timeline" t || startswith "Milestones" t || startswith "Phase" t
  || re_match re_numbered t
  || any_in principle_patterns t || contains "What could" t.

Definition spec_level (text : string) (size : Q) (fs : font_stats)
  : option level :=
  let text := strip text in
  if size_ge size (large_size fs)
     && (contains "Digital Library" text || contains "Critical Component" text)
  then Some H1
  else if String.eqb text "Summary" || String.eqb text "Background"
          || startswith "The Business Plan" text
          || startswith "Approach and" text
          || startswith "Evaluation and" text
          || startswith "Appendix" text
  then Some H2
  else if spec_h3 text then Some H3
  else if startswith "For each" text && endswith ":" text then Some H4
  else if size_ge size (large_size fs) then Some H1
  else if size_ge size (medium_size fs) then Some H2
  else None.

#[local] Instance Q_eq_dec : EqDecision Q.
Proof. solve_decision. Defined.

(** A multiple of one tenth, written with denominator 10. *)
Definition tenth (q : Q) : Prop := Qden q = 10%positive.

(** How many of the sizes round to [q]. *)
Definition occurrences (q : Q) (sizes : list Q) : Z :=
  Z.of_nat (length (filter (fun s => round1 s = q) sizes)).

(** [size_counts] after the loop over [sizes]: one key per rounded size,
    each with the number of sizes that round to it. *)
Definition counts_of (sizes : list Q) (d : list (Q * Z)) : Prop :=
  NoDup d.*1 ∧ Forall tenth d.*1
  ∧ ∀ q c, (q, c) ∈ d ↔ q ∈ round1 <$> sizes ∧ c = occurrences q sizes.

(** [x] ranks before [y], or level with it: the higher count first, and
    among equal counts the larger size first. *)
Definition ranks_before (x y : Q * Z) : Prop :=
  y.2 < x.2 ∨ (y.2 = x.2 ∧ (y.1 <= x.1)%Q).

Definition default_profile : font_stats :=
  {| large_size := 14 # 1; medium_size := 12 # 1; body_size := 11 # 1 |}.

Definition mixed_size_lines : list line :=
  [ run "a" (1249 # 100) 1; run "b" (1251 # 100) 1; run "c" (5 # 2) 1;
    run "d" (12 # 1) 1; run "e" (12 # 1) 2 ].

(** Some character of the string is not white space. *)
Fixpoint has_ink (s : string) : bool :=
  match s with
  | EmptyString => false
  | String c s' => negb (is_space c) || has_ink s'
  end.

(** Every white-space character is a blank that no white space follows. *)
Fixpoint single_blanks (s : string) : bool :=
  match s with
  | EmptyString => true
  | String c s' =>
      (if is_space c then ascii_eqb c " " && negb (starts_space s') else true)
      && single_blanks s'
  end.

Definition blank_span : span :=
  {| span_text := "   "; span_size := 30 # 1; span_flags := 0 |}.

Definition sample_document : document :=
  [ [ None;
      Some [ [ {| span_text := "Ontario "; span_size := 18 # 1; span_flags := 16 |};
               {| span_text := " Digital  Library"; span_size := 20 # 1; span_flags := 0 |} ];
             [ blank_span ];
             [] ] ];
    [ Some [ [ {| span_text := "Summary"; span_size := 14 # 1; span_flags := 20 |} ];
             [ {| span_text := "Plain words of the text"; span_size := 11 # 1; span_flags := 4 |};
               blank_span ] ] ] ].

Definition blank_document : document :=
  [ [ None; Some [ [ blank_span ]; [] ] ]; [] ].

(** * Properties *)

(** ** The embedding on sample inputs *)

Example clean_collapses :
  clean "  Road   Map to  Prosperity " = "Road Map to Prosperity".
Proof. reflexivity. Qed.

Example structural_ignores_case : is_structural_heading "SUMMARY" = true.
Proof. reflexivity. Qed.

Example structural_phase :
  is_structural_heading "Phase IV: Roll-out" = true
  ∧ is_structural_heading "Phase 4: Roll-out" = false
  ∧ is_structural_heading "Appendix D: Tables" = false.
Proof. by vm_compute. Qed.

Example body_text_contact : is_body_text "Reach us by Phone" = true.
Proof. reflexivity. Qed.

Example background_is_h2 :
  get_heading_level "Background" (10 # 1) default_profile = Some H2.
Proof. reflexivity. Qed.

Example numbered_section_scan :
  (scan {| large_size := 14 # 1; medium_size := 13 # 1; body_size := 11 # 1 |}
     [ run "1. Introduction" (13 # 1) 2;
       run "This describes the plan in detail and must be received by March."
         (11 # 1) 2 ]
     ([], ∅)).1
  = [ {| e_level := H3; e_text := "1. Introduction"; e_page := 2 |} ].
Proof. by vm_compute. Qed.

Example round1_ties_to_even :
  round1 (5 # 4) = 12 # 10 ∧ round1 (27 # 20) = 14 # 10
  ∧ round1 (1249 # 100) = 125 # 10.
Proof. by vm_compute. Qed.

(** ** What the string tests mean *)

Lemma ascii_eqb_true (a b : ascii) : ascii_eqb a b = true ↔ a = b.
Proof. apply Ascii.eqb_eq. Qed.

Lemma startswith_spec (p s : string) : startswith p s = true ↔ StartsWith p s.
Proof.
  revert s. induction p as [|a p IH]; intros s; simpl.
  - split; [intros _; by exists s | done].
  - destruct s as [|b s].
    + split; [done | intros [r Hr]; discriminate].
    + rewrite andb_true_iff, ascii_eqb_true, IH. split.
      * intros [-> [r ->]]. by exists r.
      * intros [r Hr]. simpl in Hr. simplify_eq. split; [done | by exists r].
Qed.

Lemma anywhere_spec (m : string → bool) (s : string) :
  anywhere m s = true ↔ ∃ a b, s = a +:+ b ∧ m b = true.
Proof.
  induction s as [|c s IH]; simpl; rewrite orb_true_iff.
  - split.
    + intros [H | H]; [by exists "", "" | done].
    + intros (a & b & Hab & Hm). destruct a; [|done]. simpl in Hab. subst b. by left.
  - rewrite IH. split.
    + intros [H | (a & b & -> & Hm)].
      * by exists "", (String c s).
      * by exists (String c a), b.
    + intros (a & b & Hab & Hm). destruct a as [|c' a]; simpl in Hab.
      * subst b. by left.
      * injection Hab as -> ->. right. by exists a, b.
Qed.

Lemma contains_spec (p s : string) : contains p s = true ↔ Contains p s.
Proof.
  unfold contains, Contains. rewrite anywhere_spec. split.
  - intros (a & b & -> & H). apply startswith_spec in H as [r ->]. by exists a, r.
  - intros (a & b & ->). exists a, (p +:+ b). split; [done|].
    apply startswith_spec. by exists b.
Qed.

Lemma endswith_spec (p s : string) : endswith p s = true ↔ EndsWith p s.
Proof.
  induction s as [|c s IH]; simpl; rewrite orb_true_iff, String.eqb_eq.
  - split.
    + intros [-> | H]; [by exists "" | done].
    + intros [a Ha]. left. destruct a; simpl in Ha; [done | discriminate].
  - rewrite IH. split.
    + intros [-> | [a ->]]; [by exists "" | by exists (String c a)].
    + intros [a Ha]. destruct a as [|c' a]; simpl in Ha.
      * by left.
      * injection Ha as -> ->. right. by exists a.
Qed.

Lemma any_in_spec (ps : list string) (s : string) :
  any_in ps s = true ↔ ∃ p, p ∈ ps ∧ Contains p s.
Proof.
  unfold any_in. rewrite existsb_exists. split.
  - intros (p & Hin & H). exists p. split; [by apply list_elem_of_In | by apply contains_spec].
  - intros (p & Hin & H). exists p. split; [by apply list_elem_of_In | by apply contains_spec].
Qed.

(** ** Matchers *)

Lemma re_match_alt (m1 m2 : matcher) (s : string) :
  re_match (alt m1 m2) s = re_match m1 s || re_match m2 s.
Proof. unfold re_match, alt. by destruct (m1 s). Qed.

Lemma lit_startswith (p s : string) : re_match (lit p) s = startswith p s.
Proof.
  unfold re_match. revert s. induction p as [|a p IH]; intros s; simpl; [done|].
  destruct s as [|b s]; [done|]. destruct (ascii_eqb a b); simpl; [apply IH | done].
Qed.

Lemma lit_Some (p s r : string) : lit p s = Some r ↔ s = p +:+ r.
Proof.
  revert s. induction p as [|a p IH]; intros s; simpl.
  - split; [by intros [= ->] | by intros ->].
  - destruct s as [|b s]; [done|].
    destruct (ascii_eqb a b) eqn:E.
    + apply ascii_eqb_true in E as ->. rewrite IH. split; [by intros -> | by intros [= ->]].
    + split; [done|]. intros [= -> _]. unfold ascii_eqb in E.
      by rewrite Ascii.eqb_refl in E.
Qed.

Lemma anywhere_orb (f g : string → bool) (s : string) :
  anywhere (fun x => f x || g x) s = anywhere f s || anywhere g s.
Proof.
  induction s as [|c s IH]; simpl.
  - by rewrite !orb_false_r.
  - rewrite IH. destruct (f (String c s)), (g (String c s)), (anywhere f s); done.
Qed.

Lemma anywhere_ext (f g : string → bool) (s : string) :
  (∀ x, f x = g x) → anywhere f s = anywhere g s.
Proof. intros H. induction s as [|c s IH]; simpl; rewrite H; [done | by rewrite IH]. Qed.

Lemma skip_digits_dot (ds r : string) :
  skip is_digit ds = "" → skip is_digit (ds +:+ String "." r) = String "." r.
Proof.
  induction ds as [|c ds IH]; simpl; [done|].
  destruct (is_digit c); [done | discriminate].
Qed.

Lemma skip_split (f : ascii → bool) (s : string) :
  ∃ ds, s = ds +:+ skip f s ∧ skip f ds = "".
Proof.
  induction s as [|c s (ds & Hs & Hds)]; simpl.
  - by exists "".
  - destruct (f c) eqn:E.
    + exists (String c ds). simpl. rewrite E. split; [by f_equal | done].
    + by exists "".
Qed.

Lemma re_number_dot_spec (s : string) :
  re_match re_number_dot s = true ↔ NumberDot s.
Proof.
  unfold re_match, re_number_dot, seq, many1, NumberDot. split.
  - destruct s as [|d s]; [done|]. destruct (is_digit d) eqn:Ed; [|done].
    destruct (lit "." (skip is_digit s)) as [r|] eqn:El; [|done]. intros _.
    apply lit_Some in El. destruct (skip_split is_digit s) as (ds & Hs & Hds).
    exists d, ds, r. rewrite El in Hs. simpl in Hs. by rewrite <- Hs.
  - intros (d & ds & r & -> & Hd & Hds). rewrite Hd, skip_digits_dot by done.
    done.
Qed.

(** ** White space *)

Lemma lstrip_id (s : string) : starts_space s = false → lstrip s = s.
Proof. destruct s as [|c s]; simpl; [done|]. by intros ->. Qed.

Lemma rstrip_id (s : string) : ends_space s = false → rstrip s = s.
Proof.
  induction s as [|c s IH]; [done|]. simpl.
  destruct s as [|c' s].
  - simpl. by intros ->.
  - intros H. by rewrite IH.
Qed.

Lemma starts_space_lstrip (s : string) : starts_space (lstrip s) = false.
Proof.
  induction s as [|c s IH]; [done|]. simpl.
  destruct (is_space c) eqn:E; [done|]. simpl. by rewrite E.
Qed.

Lemma starts_space_rstrip (s : string) :
  starts_space s = false → starts_space (rstrip s) = false.
Proof.
  destruct s as [|c s]; [done|]. simpl. intros E.
  destruct (rstrip s); rewrite ?E; done.
Qed.

Lemma ends_space_rstrip (s : string) : ends_space (rstrip s) = false.
Proof.
  induction s as [|c s IH]; [done|]. simpl.
  destruct (rstrip s) as [|c' r] eqn:Er.
  - destruct (is_space c) eqn:E; [done|]. simpl. by rewrite E.
  - done.
Qed.

Lemma strip_trimmed (s : string) : trimmed (strip s).
Proof.
  split.
  - apply starts_space_rstrip, starts_space_lstrip.
  - apply ends_space_rstrip.
Qed.

Lemma strip_id (s : string) : trimmed s → strip s = s.
Proof. intros [H1 H2]. unfold strip. by rewrite lstrip_id, rstrip_id. Qed.

Lemma sub_spaces_nonempty (s : string) :
  s ≠ "" → starts_space s = false → sub_spaces s ≠ "".
Proof. destruct s as [|c s]; [done|]. simpl. by intros _ ->. Qed.

Lemma starts_space_sub (s : string) :
  starts_space s = false → starts_space (sub_spaces s) = false.
Proof. destruct s as [|c s]; [done|]. simpl. intros E. rewrite E. simpl. done. Qed.

Lemma ends_space_cons (c : ascii) (s : string) :
  s ≠ "" → ends_space (String c s) = ends_space s.
Proof. by destruct s. Qed.

Lemma ends_space_sub (s : string) :
  ends_space s = false → ends_space (sub_spaces s) = false.
Proof.
  induction s as [|c s IH]; [done|].
  destruct s as [|c' s].
  - simpl. intros E. rewrite E. simpl. done.
  - rewrite ends_space_cons by done. intros H. specialize (IH H).
    change (sub_spaces (String c (String c' s))) with
      (if is_space c
       then if is_space c' then sub_spaces (String c' s)
            else String " " (sub_spaces (String c' s))
       else String c (sub_spaces (String c' s))).
    destruct (is_space c) eqn:Ec, (is_space c') eqn:Ec'; try done.
    + rewrite ends_space_cons; [done|].
      apply sub_spaces_nonempty; [done | done].
    + destruct (sub_spaces (String c' s)) eqn:Es; [by simpl; rewrite Ec|].
      by rewrite ends_space_cons.
    + rewrite ends_space_cons; [done|]. by apply sub_spaces_nonempty.
Qed.

Lemma clean_trimmed (t : string) : trimmed (clean t).
Proof.
  destruct (strip_trimmed t) as [H1 H2]. split.
  - by apply starts_space_sub.
  - by apply ends_space_sub.
Qed.

(** Stripping a cleaned text again changes nothing. *)
Lemma strip_clean (t : string) : strip (clean t) = clean t.
Proof. apply strip_id, clean_trimmed. Qed.

Lemma starts_space_app (a x : string) :
  a ≠ "" → starts_space (a +:+ x) = starts_space a.
Proof. by destruct a. Qed.

Lemma ends_space_app (a b : string) :
  b ≠ "" → ends_space (a +:+ b) = ends_space b.
Proof.
  intros Hb. induction a as [|c a IH]; [done|]. simpl.
  rewrite <- IH. destruct (a +:+ b) eqn:E; [|done].
  destruct a; simpl in E; [done | discriminate].
Qed.

Lemma sub_spaces_app (a x : string) :
  ends_space a = false → sub_spaces (a +:+ x) = sub_spaces a +:+ sub_spaces x.
Proof.
  induction a as [|c a IH]; [done|].
  destruct a as [|c' a].
  - simpl. by intros ->.
  - rewrite ends_space_cons by done. intros H. specialize (IH H).
    simpl in *. rewrite IH.
    destruct (is_space c), (is_space c'); done.
Qed.

Lemma normalized_inv (t : string) :
  normalized t → trimmed t ∧ sub_spaces t = t.
Proof.
  intros H. assert (Ht : trimmed t) by (rewrite <- H; apply clean_trimmed).
  split; [done|]. unfold normalized, clean in H. by rewrite strip_id in H.
Qed.

Lemma normalized_intro (t : string) :
  trimmed t → sub_spaces t = t → normalized t.
Proof. intros Ht Hs. unfold normalized, clean. by rewrite strip_id. Qed.

Lemma join_sp_cons (t u : string) (ts : list string) :
  join_sp (t :: u :: ts) = t +:+ " " +:+ join_sp (u :: ts).
Proof. done. Qed.

(** Joining normalized, non-empty texts with single blanks gives a
    normalized text, so [clean] leaves the join alone. *)
Lemma normalized_join (ts : list string) :
  Forall (fun t => normalized t ∧ t ≠ "") ts →
  normalized (join_sp ts) ∧ (ts ≠ [] → join_sp ts ≠ "").
Proof.
  induction 1 as [|t ts [Ht Hne] Hts [IHn IHe]]; [done|].
  destruct ts as [|u ts]; [done|].
  rewrite join_sp_cons. specialize (IHe ltac:(done)).
  apply normalized_inv in Ht as [[Ht1 Ht2] Ht3].
  apply normalized_inv in IHn as [[Hj1 Hj2] Hj3].
  split; [|by destruct t].
  apply normalized_intro.
  - split.
    + by rewrite starts_space_app.
    + rewrite ends_space_app by done.
      change (ends_space (String " " (join_sp (u :: ts))) = false).
      by rewrite ends_space_cons.
  - rewrite sub_spaces_app by done. rewrite Ht3. f_equal.
    change (sub_spaces (String " " (join_sp (u :: ts)))
            = String " " (join_sp (u :: ts))).
    change (sub_spaces (String " " ?x)) with
      (if starts_space x then sub_spaces x else String " " (sub_spaces x)).
    by rewrite Hj1, Hj3.
Qed.

(** ** The outline loop *)

Lemma heading_of_Some (fs : font_stats) (l : line) (e : entry) :
  heading_of fs l = Some e ↔
    e_text e = clean (text l) ∧ e_page e = page l
    ∧ (4 ≤ len (clean (text l)))%nat
    ∧ is_body_text (clean (text l)) = false
    ∧ is_structural_heading (clean (text l)) = true
    ∧ get_heading_level (clean (text l)) (size l) fs = Some (e_level e).
Proof.
  unfold heading_of.
  destruct (Nat.ltb_spec (len (clean (text l))) 4) as [Hl|Hl]; simpl.
  { split; [done | lia]. }
  destruct (is_body_text (clean (text l))); simpl.
  { split; [done | by intros (_ & _ & _ & ? & _)]. }
  destruct (is_structural_heading (clean (text l))); simpl.
  2:{ split; [done | by intros (_ & _ & _ & _ & ? & _)]. }
  destruct (get_heading_level _ _ _) as [lv|].
  2:{ split; [done | by intros (_ & _ & _ & _ & _ & ?)]. }
  destruct e as [lv' t' p']; simpl. split.
  - by intros [= <- <- <-].
  - by intros (-> & -> & _ & _ & _ & [= ->]).
Qed.

Lemma scan_step_heading (fs : font_stats) (st : scan_state) (l : line) :
  scan_step fs st l =
    match heading_of fs l with
    | Some e =>
        if bool_decide (e_text e ∈ st.2) then st
        else (st.1 ++ [e], {[ e_text e ]} ∪ st.2)
    | None => st
    end.
Proof.
  unfold scan_step, heading_of.
  destruct (Nat.ltb (len (clean (text l))) 4),
    (is_body_text (clean (text l))),
    (is_structural_heading (clean (text l)));
    rewrite ?orb_true_r; simpl; try done.
  destruct (bool_decide _) eqn:E; simpl.
  - destruct (get_heading_level _ _ _); simpl; [by rewrite E | done].
  - destruct (get_heading_level _ _ _); simpl; [by rewrite E | done].
Qed.

Lemma scan_cons (fs : font_stats) (l : line) (ls : list line) (st : scan_state) :
  scan fs (l :: ls) st = scan fs ls (scan_step fs st l).
Proof. done. Qed.

Lemma scan_app (fs : font_stats) (l1 l2 : list line) (st : scan_state) :
  scan fs (l1 ++ l2) st = scan fs l2 (scan fs l1 st).
Proof. apply fold_left_app. Qed.

Lemma scan_inv_init : scan_inv ([], ∅).
Proof. split; [done | constructor]. Qed.

Lemma scan_step_inv (fs : font_stats) (st : scan_state) (l : line) :
  scan_inv st → scan_inv (scan_step fs st l).
Proof.
  intros [Hs Hn]. rewrite scan_step_heading.
  destruct (heading_of fs l) as [e|]; [|done].
  destruct (bool_decide_reflect (e_text e ∈ st.2)) as [Hin|Hin]; [done|].
  split; simpl.
  - rewrite fmap_app, list_to_set_app_L, <- Hs. simpl.
    rewrite union_empty_r_L. apply (comm_L _).
  - rewrite fmap_app. apply NoDup_app. split; [done|]. split.
    + intros t Ht [->|H]%elem_of_cons; [|by apply elem_of_nil in H].
      apply Hin. rewrite Hs. by apply elem_of_list_to_set.
    + simpl. apply NoDup_singleton.
Qed.

Lemma scan_preserves_inv (fs : font_stats) (ls : list line) (st : scan_state) :
  scan_inv st → scan_inv (scan fs ls st).
Proof.
  revert st. induction ls as [|l ls IH]; intros st H; [done|].
  rewrite scan_cons. by apply IH, scan_step_inv.
Qed.

(** The loop only appends, and what it appends is taken, in order, from
    what the runs contribute. *)
Lemma scan_appends (fs : font_stats) (ls : list line) (st : scan_state) :
  ∃ new, (scan fs ls st).1 = st.1 ++ new
         ∧ new `sublist_of` omap (heading_of fs) ls.
Proof.
  revert st. induction ls as [|l ls IH]; intros st.
  - exists []. by rewrite app_nil_r.
  - rewrite scan_cons. destruct (IH (scan_step fs st l)) as (new & Hn & Hsub).
    rewrite Hn, scan_step_heading. simpl.
    destruct (heading_of fs l) as [e|].
    + destruct (bool_decide _); simpl.
      * exists new. split; [done|]. by apply sublist_cons.
      * exists (e :: new). rewrite <- app_assoc. split; [done|]. by apply sublist_skip.
    + by exists new.
Qed.

Lemma outline_sublist (fs : font_stats) (ls : list line) :
  (scan fs ls ([], ∅)).1 `sublist_of` omap (heading_of fs) ls.
Proof. destruct (scan_appends fs ls ([], ∅)) as (new & -> & H). done. Qed.

Lemma outline_entry_origin (fs : font_stats) (ls : list line) (e : entry) :
  e ∈ (scan fs ls ([], ∅)).1 → ∃ l, l ∈ ls ∧ heading_of fs l = Some e.
Proof.
  intros H. apply (sublist_subseteq _ _ (outline_sublist fs ls)) in H.
  by apply list_elem_of_omap in H.
Qed.

Lemma filter_text_singleton (l : list entry) (x : entry) :
  NoDup (e_text <$> l) → x ∈ l →
  filter (fun y => e_text y = e_text x) l = [x].
Proof.
  induction l as [|y l IH]; intros Hn Hx; [by apply elem_of_nil in Hx|].
  rewrite fmap_cons in Hn. apply NoDup_cons in Hn as [Hy Hn].
  apply elem_of_cons in Hx as [<-|Hx].
  - rewrite filter_cons_True by done. f_equal.
    destruct (filter _ l) as [|z k] eqn:E; [done|]. exfalso.
    assert (Hz : z ∈ filter (fun y0 => e_text y0 = e_text x) l)
      by (rewrite E; apply elem_of_cons; by left).
    apply list_elem_of_filter in Hz as [Heq Hz].
    apply Hy. rewrite <- Heq. by apply list_elem_of_fmap_2.
  - rewrite filter_cons_False; [by apply IH|].
    intros Heq. apply Hy. rewrite Heq. by apply list_elem_of_fmap_2.
Qed.

(** The first run that contributes a given text is the one whose entry
    the outline keeps. *)
Lemma first_contribution_kept (fs : font_stats) (l1 l2 : list line)
    (r : line) (e : entry) :
  heading_of fs r = Some e →
  (∀ r' e', r' ∈ l1 → heading_of fs r' = Some e' → e_text e' ≠ e_text e) →
  filter (fun x => e_text x = e_text e) (scan fs (l1 ++ r :: l2) ([], ∅)).1 = [e].
Proof.
  intros He Hfirst.
  assert (Hinv : scan_inv (scan fs (l1 ++ r :: l2) ([], ∅)))
    by apply scan_preserves_inv, scan_inv_init.
  apply filter_text_singleton; [apply Hinv|].
  rewrite scan_app, scan_cons.
  pose proof (scan_preserves_inv fs l1 _ scan_inv_init) as [Hs1 _].
  destruct (scan_appends fs l2 (scan_step fs (scan fs l1 ([], ∅)) r))
    as (new & -> & _).
  apply elem_of_app. left. rewrite scan_step_heading, He.
  destruct (bool_decide_reflect (e_text e ∈ (scan fs l1 ([], ∅)).2)) as [Hin|Hin].
  - exfalso. rewrite Hs1 in Hin. apply elem_of_list_to_set in Hin.
    apply list_elem_of_fmap in Hin as (e' & Heq & Hin).
    apply outline_entry_origin in Hin as (r' & Hr' & Hh).
    by apply (Hfirst r' e').
  - simpl. apply elem_of_app. right. by apply list_elem_of_singleton.
Qed.

(** ** The body-text filter, rule by rule *)

Lemma lower_at (c : ascii) : ascii_eqb "@" (lower c) = ascii_eqb "@" c.
Proof. destruct c as [[] [] [] [] [] [] [] []]; reflexivity. Qed.

Lemma is_digit_lower (c : ascii) : is_digit (lower c) = is_digit c.
Proof. destruct c as [[] [] [] [] [] [] [] []]; reflexivity. Qed.

Lemma anywhere_lower (f g : string → bool) (s : string) :
  (∀ x, f (lower_str x) = g x) → anywhere f (lower_str s) = anywhere g s.
Proof.
  intros H. induction s as [|c s IH].
  - simpl. by rewrite <- (H "").
  - simpl. rewrite IH. f_equal. apply (H (String c s)).
Qed.

Lemma four_digits_lower (s : string) :
  re_match re_four_digits (lower_str s) = re_match re_four_digits s.
Proof.
  unfold re_match, re_four_digits, seq, one.
  destruct s as [|c1 s]; [done|]. simpl. rewrite is_digit_lower.
  destruct (is_digit c1); [|done].
  destruct s as [|c2 s]; [done|]. simpl. rewrite is_digit_lower.
  destruct (is_digit c2); [|done].
  destruct s as [|c3 s]; [done|]. simpl. rewrite is_digit_lower.
  destruct (is_digit c3); [|done].
  destruct s as [|c4 s]; [done|]. simpl. rewrite is_digit_lower.
  by destruct (is_digit c4).
Qed.

Lemma four_digits_spec (s : string) :
  anywhere (re_match re_four_digits) s = true ↔ FourDigits s.
Proof.
  rewrite anywhere_spec. unfold FourDigits. split.
  - intros (a & b & -> & H). revert H.
    unfold re_match, re_four_digits, seq, one.
    destruct b as [|d1 b]; [done|]. destruct (is_digit d1) eqn:E1; [|done].
    destruct b as [|d2 b]; [done|]. destruct (is_digit d2) eqn:E2; [|done].
    destruct b as [|d3 b]; [done|]. destruct (is_digit d3) eqn:E3; [|done].
    destruct b as [|d4 b]; [done|]. destruct (is_digit d4) eqn:E4; [|done].
    intros _. by exists a, d1, d2, d3, d4, b.
  - intros (a & d1 & d2 & d3 & d4 & b & -> & E1 & E2 & E3 & E4).
    exists a, (String d1 (String d2 (String d3 (String d4 b)))).
    split; [done|]. unfold re_match, re_four_digits, seq, one.
    by rewrite E1, E2, E3, E4.
Qed.

Lemma re_contact_split (x : string) :
  re_search re_contact x =
    contains "@" x || anywhere (re_match re_four_digits) x
    || any_in contact_words x.
Proof.
  unfold re_search.
  rewrite (anywhere_ext _ (fun s =>
     startswith "@" s || (re_match re_four_digits s
     || (startswith "phone" s || (startswith "email" s
     || (startswith "fax" s || startswith "mail" s)))))).
  2:{ intros s. unfold re_contact. by rewrite !re_match_alt, !lit_startswith. }
  rewrite !anywhere_orb. unfold any_in, contact_words, contains, existsb.
  by rewrite orb_false_r, !orb_assoc.
Qed.

Lemma contains_at_lower (s : string) :
  contains "@" (lower_str s) = contains "@" s.
Proof.
  apply anywhere_lower. intros [|c x]; [done|]. cbn [startswith lower_str].
  by rewrite lower_at.
Qed.

Lemma is_body_text_spec (t : string) :
  is_body_text t = true ↔ body_rule (strip t).
Proof.
  unfold is_body_text. generalize (strip t). clear t. intros t.
  rewrite re_contact_split, contains_at_lower.
  rewrite (anywhere_lower _ (re_match re_four_digits)) by apply four_digits_lower.
  split.
  - destruct (Nat.ltb_spec 100 (len t)); [intros _; by apply too_long|].
    destruct (endswith "." t && Nat.ltb 20 (len t)) eqn:E1.
    { intros _. apply andb_true_iff in E1 as [E1 E2].
      apply sentence; [by apply endswith_spec | by apply Nat.ltb_lt]. }
    destruct (any_in prose_phrases (lower_str t)) eqn:E2.
    { intros _. apply any_in_spec in E2 as (p & Hp & Hc). by apply (prose _ p). }
    destruct (contains "@" t) eqn:E3.
    { intros _. by apply contact_at, contains_spec. }
    destruct (anywhere (re_match re_four_digits) t) eqn:E4.
    { intros _. by apply contact_year, four_digits_spec. }
    destruct (any_in contact_words (lower_str t)) eqn:E5.
    { intros _. apply any_in_spec in E5 as (w & Hw & Hc). exact (contact_word t w Hw Hc). }
    cbn [orb].
    destruct (startswith "-" t && Nat.ltb 30 (len t)) eqn:E6; [|done].
    intros _. apply andb_true_iff in E6 as [E6 E7].
    apply long_bullet; [by apply startswith_spec | by apply Nat.ltb_lt].
  - intros H.
    destruct (Nat.ltb_spec 100 (len t)) as [|Hlen]; [done|].
    destruct (endswith "." t && Nat.ltb 20 (len t)) eqn:E1; [done|].
    destruct (any_in prose_phrases (lower_str t)) eqn:E2; [done|].
    destruct (contains "@" t) eqn:E3; [done|].
    destruct (anywhere (re_match re_four_digits) t) eqn:E4; [done|].
    destruct (any_in contact_words (lower_str t)) eqn:E5; [done|]. cbn [orb].
    destruct H as [H|H1 H2|p Hp Hc|H|H|w Hw Hc|H1 H2].
    + lia.
    + apply endswith_spec in H1. apply Nat.ltb_lt in H2. by rewrite H1, H2 in E1.
    + assert (any_in prose_phrases (lower_str t) = true) as E
        by (apply any_in_spec; by exists p). by rewrite E in E2.
    + apply contains_spec in H. by rewrite H in E3.
    + apply four_digits_spec in H. by rewrite H in E4.
    + assert (any_in contact_words (lower_str t) = true) as E
        by (apply any_in_spec; by exists w). by rewrite E in E5.
    + apply startswith_spec in H1. apply Nat.ltb_lt in H2. by rewrite H1, H2.
Qed.

Lemma upper_not_space (c : ascii) : is_upper_AZ c = true → is_space c = false.
Proof. destruct c as [[] [] [] [] [] [] [] []]; vm_compute; congruence. Qed.

Lemma numbered_one (c : ascii) (rest : string) :
  is_upper_AZ c = true → re_match re_numbered ("1. " +:+ String c rest) = true.
Proof.
  intros Hc. unfold re_match, re_numbered, seq, many1, one. simpl.
  by rewrite (upper_not_space c Hc), Hc.
Qed.

Lemma outline_scan (all_lines : list line) :
  outline (extract_outline all_lines)
  = (scan (analyze_fonts all_lines) all_lines ([], ∅)).1.
Proof. done. Qed.

Lemma outline_entry_not_body (all_lines : list line) (e : entry) :
  e ∈ outline (extract_outline all_lines) → is_body_text (e_text e) = false.
Proof.
  rewrite outline_scan. intros (l & _ & H)%outline_entry_origin.
  apply heading_of_Some in H as (-> & _ & _ & H & _). done.
Qed.

(** C1. A run whose normalized text meets one of the body-text rules
    (longer than 100 characters; ends with a period and is longer than 20;
    contains a prose phrase; contains an at sign, four digits in a row or
    one of the contact words; starts with a dash and is longer than 30)
    leaves no entry in the outline.  In particular a run of length 150
    that starts with "1. " and an upper-case letter is structural for
    [is_structural_heading], and still leaves no entry. *)
Theorem body_rejection_dominates :
  (∀ (all_lines : list line) (l : line),
     l ∈ all_lines →
     body_rule (clean (text l)) →
     ∀ e, e ∈ outline (extract_outline all_lines) → e_text e ≠ clean (text l))
  ∧
  (∀ (all_lines : list line) (l : line) (c : ascii) (rest : string),
     l ∈ all_lines →
     clean (text l) = "1. " +:+ String c rest →
     is_upper_AZ c = true →
     len (clean (text l)) = 150%nat →
     is_structural_heading (clean (text l)) = true
     ∧ ∀ e, e ∈ outline (extract_outline all_lines) → e_text e ≠ clean (text l)).
Proof.
  assert (Hmain : ∀ (all_lines : list line) (l : line),
     body_rule (clean (text l)) →
     ∀ e, e ∈ outline (extract_outline all_lines) → e_text e ≠ clean (text l)).
  { intros all_lines l Hrule e He Heq.
    apply outline_entry_not_body in He. rewrite Heq in He.
    rewrite <- (strip_clean (text l)) in Hrule.
    apply is_body_text_spec in Hrule. congruence. }
  split.
  - intros all_lines l _. apply Hmain.
  - intros all_lines l c rest _ Ht Hc Hlen. split.
    + unfold is_structural_heading. rewrite strip_clean, Ht.
      rewrite (numbered_one c rest Hc).
      destruct (re_match re_main_section _); [done|].
      destruct (re_match re_appendix_phase _); [done|].
      by destruct (re_match re_approach _).
    + apply Hmain. apply too_long. lia.
Qed.

Lemma body_rejection_dominates_witness :
  is_structural_heading (clean long_numbered_text) = true
  ∧ ∀ e, e ∈ outline (extract_outline
                        [run long_numbered_text (14 # 1) 1;
                         run "Background" (12 # 1) 1]) →
         e_text e ≠ clean long_numbered_text.
Proof.
  apply (proj2 body_rejection_dominates
           [run long_numbered_text (14 # 1) 1; run "Background" (12 # 1) 1]
           (run long_numbered_text (14 # 1) 1) "I"%char
           "ntroduction to the province wide digital library programme and its governance model including the funding and the purchasing of licences for users").
  - apply elem_of_cons. by left.
  - vm_compute. reflexivity.
  - vm_compute. reflexivity.
  - vm_compute. reflexivity.
Defined.

(** ** Duplicates *)

Lemma outline_texts_nodup (all_lines : list line) :
  NoDup (e_text <$> outline (extract_outline all_lines)).
Proof.
  rewrite outline_scan.
  apply (scan_preserves_inv _ all_lines _ scan_inv_init).
Qed.

(** The text of every run that contributes is the text of some entry. *)
Lemma contributed_text_kept (fs : font_stats) (ls : list line)
    (r : line) (e : entry) :
  r ∈ ls → heading_of fs r = Some e →
  ∃ e', e' ∈ (scan fs ls ([], ∅)).1 ∧ e_text e' = e_text e.
Proof.
  intros (l1 & l2 & ->)%list_elem_of_split He.
  rewrite scan_app, scan_cons.
  pose proof (scan_step_inv fs _ r (scan_preserves_inv fs l1 _ scan_inv_init))
    as [Hs _].
  destruct (scan_appends fs l2 (scan_step fs (scan fs l1 ([], ∅)) r))
    as (new & -> & _).
  assert (Hin : e_text e ∈ (scan_step fs (scan fs l1 ([], ∅)) r).2).
  { rewrite scan_step_heading, He.
    destruct (bool_decide_reflect (e_text e ∈ (scan fs l1 ([], ∅)).2)); [done|].
    simpl. apply elem_of_union. left. by apply elem_of_singleton. }
  rewrite Hs in Hin. apply elem_of_list_to_set, list_elem_of_fmap in Hin
    as (e' & Heq & Hin).
  exists e'. split; [|done]. apply elem_of_app. by left.
Qed.

(** A structural text occurs on page 1 and on page 2; the one entry with
    that text carries page 2, not the page of the first occurrence. *)
Lemma dedup_first_occurrence_counterexample :
  analyze_fonts road_map_lines
    = {| large_size := 120 # 10; medium_size := 140 # 10; body_size := 100 # 10 |}
  ∧ road_map_lines !! 0%nat = Some (run "Road Map to Prosperity" (10 # 1) 1)
  ∧ road_map_lines !! 4%nat = Some (run "Road Map to Prosperity" (14 # 1) 2)
  ∧ is_body_text "Road Map to Prosperity" = false
  ∧ is_structural_heading "Road Map to Prosperity" = true
  ∧ outline (extract_outline road_map_lines)
    = [ {| e_level := H1; e_text := "Road Map to Prosperity"; e_page := 2 |} ]
  ∧ ¬ ∃ e, e ∈ outline (extract_outline road_map_lines)
           ∧ e_text e = "Road Map to Prosperity" ∧ e_page e = 1.
Proof.
  vm_compute. repeat split; try done.
  intros (e & He & _ & Hp).
  apply elem_of_cons in He as [-> | He]; [done | by apply elem_of_nil in He].
Qed.

(** Among the runs that contribute a given text there is a first one. *)
Lemma first_contribution_exists (fs : font_stats) (ls : list line)
    (r0 : line) (e0 : entry) :
  r0 ∈ ls → heading_of fs r0 = Some e0 →
  ∃ l1 r l2 e,
    ls = l1 ++ r :: l2 ∧ heading_of fs r = Some e ∧ e_text e = e_text e0
    ∧ ∀ r' e', r' ∈ l1 → heading_of fs r' = Some e' → e_text e' ≠ e_text e0.
Proof.
  induction ls as [|x ls IH]; intros Hin He0; [by apply elem_of_nil in Hin|].
  destruct (heading_of fs x) as [ex|] eqn:Hx.
  - destruct (decide (e_text ex = e_text e0)) as [Heq|Hne].
    + exists [], x, ls, ex. repeat split; try done.
      intros r' e' Hr'. by apply elem_of_nil in Hr'.
    + apply elem_of_cons in Hin as [->|Hin]; [congruence|].
      destruct (IH Hin He0) as (l1 & r & l2 & e & -> & He & Ht & Hfirst).
      exists (x :: l1), r, l2, e. repeat split; try done.
      intros r' e' [->|Hr']%elem_of_cons He'; [congruence | by eapply Hfirst].
  - apply elem_of_cons in Hin as [->|Hin]; [congruence|].
    destruct (IH Hin He0) as (l1 & r & l2 & e & -> & He & Ht & Hfirst).
    exists (x :: l1), r, l2, e. repeat split; try done.
    intros r' e' [->|Hr']%elem_of_cons He'; [congruence | by eapply Hfirst].
Qed.

(** C3, amended.  No text occurs twice among the entries.  When some run
    passes the gates and is given a level, the outline has exactly one
    entry with that text, and it is the entry (level and page) of the
    first run in document order that passes the gates with that text and
    is given a level. *)
Theorem dedup_keeps_first_levelled (all_lines : list line) :
  NoDup (e_text <$> outline (extract_outline all_lines))
  ∧ ∀ (r0 : line) (e0 : entry),
      r0 ∈ all_lines →
      heading_of (analyze_fonts all_lines) r0 = Some e0 →
      ∃ (l1 : list line) (r : line) (l2 : list line) (e : entry),
        all_lines = l1 ++ r :: l2
        ∧ heading_of (analyze_fonts all_lines) r = Some e
        ∧ e_text e = e_text e0
        ∧ (∀ r' e', r' ∈ l1 →
             heading_of (analyze_fonts all_lines) r' = Some e' →
             e_text e' ≠ e_text e0)
        ∧ filter (fun x => e_text x = e_text e0)
                 (outline (extract_outline all_lines)) = [e]
        ∧ e_page e = page r.
Proof.
  split; [apply outline_texts_nodup|].
  intros r0 e0 Hin He0.
  destruct (first_contribution_exists _ _ _ _ Hin He0)
    as (l1 & r & l2 & e & Hall & He & Ht & Hfirst).
  exists l1, r, l2, e. repeat split; try done.
  - rewrite outline_scan, <- Ht. rewrite Hall at 2.
    apply first_contribution_kept; [done|]. by rewrite Ht.
  - by apply heading_of_Some in He as (_ & ? & _).
Qed.

Lemma dedup_keeps_first_levelled_witness :
  ∃ (l1 : list line) (r : line) (l2 : list line) (e : entry),
    road_map_lines = l1 ++ r :: l2
    ∧ heading_of (analyze_fonts road_map_lines) r = Some e
    ∧ e_text e = "Road Map to Prosperity"
    ∧ (∀ r' e', r' ∈ l1 →
         heading_of (analyze_fonts road_map_lines) r' = Some e' →
         e_text e' ≠ "Road Map to Prosperity")
    ∧ filter (fun x => e_text x = "Road Map to Prosperity")
             (outline (extract_outline road_map_lines)) = [e]
    ∧ e_page e = page r.
Proof.
  apply (proj2 (dedup_keeps_first_levelled road_map_lines)
           (run "Road Map to Prosperity" (14 # 1) 2)
           {| e_level := H1; e_text := "Road Map to Prosperity"; e_page := 2 |}).
  - vm_compute. do 4 (apply elem_of_cons; right). apply elem_of_cons. by left.
  - vm_compute. reflexivity.
Defined.

(** ** Page order *)

Lemma StronglySorted_sublist {A} (R : relation A) (l1 l2 : list A) :
  l1 `sublist_of` l2 → StronglySorted R l2 → StronglySorted R l1.
Proof.
  induction 1 as [|x l1 l2 Hsub IH|x l1 l2 Hsub IH]; intros Hs.
  - constructor.
  - apply StronglySorted_cons in Hs as [Hx Hs].
    apply StronglySorted_cons. split; [|by apply IH].
    apply Forall_forall. intros y Hy. rewrite Forall_forall in Hx.
    apply Hx. by apply (sublist_subseteq _ _ Hsub).
  - apply StronglySorted_cons in Hs as [_ Hs]. by apply IH.
Qed.

Lemma contributed_pages_sublist (fs : font_stats) (ls : list line) :
  (e_page <$> omap (heading_of fs) ls) `sublist_of` (page <$> ls).
Proof.
  induction ls as [|l ls IH]; [constructor|]. simpl.
  destruct (heading_of fs l) as [e|] eqn:He; simpl.
  - apply heading_of_Some in He as (_ & -> & _). by apply sublist_skip.
  - by apply sublist_cons.
Qed.

(** C7. When the pages of the input runs never decrease, the pages of
    consecutive outline entries never decrease either. *)
Theorem pages_monotone (all_lines : list line) :
  Sorted Z.le (map page all_lines) →
  Sorted Z.le (map e_page (outline (extract_outline all_lines))).
Proof.
  intros Hs. apply StronglySorted_Sorted.
  assert (Transitive Z.le) as Htr by (intros x y z; apply Z.le_trans).
  apply Sorted_StronglySorted in Hs; [|done].
  eapply StronglySorted_sublist; [|exact Hs].
  transitivity (e_page <$> omap (heading_of (analyze_fonts all_lines)) all_lines).
  - rewrite outline_scan. apply fmap_sublist, outline_sublist.
  - apply contributed_pages_sublist.
Qed.

Lemma pages_monotone_witness :
  Sorted Z.le (map e_page (outline (extract_outline three_page_lines))).
Proof.
  apply (pages_monotone three_page_lines).
  repeat constructor; vm_compute; discriminate.
Defined.

(** ** The seen set *)

(** C9. After any number of iterations of the outline loop the seen set
    holds exactly the texts of the entries appended so far.  Hence a run
    that passes the gates and is given a level contributes its entry, at
    its own page, whenever every earlier run with the same normalized
    text was given no level. *)
Theorem seen_is_emitted_texts (fs : font_stats) (all_lines : list line) :
  (∀ (n : nat) (t : string),
     t ∈ (scan fs (take n all_lines) ([], ∅)).2
     ↔ ∃ e, e ∈ (scan fs (take n all_lines) ([], ∅)).1 ∧ e_text e = t)
  ∧
  (∀ (l1 l2 : list line) (r : line) (e : entry),
     all_lines = l1 ++ r :: l2 →
     heading_of fs r = Some e →
     (∀ r', r' ∈ l1 → clean (text r') = clean (text r) →
            get_heading_level (clean (text r')) (size r') fs = None) →
     e ∈ (scan fs all_lines ([], ∅)).1 ∧ e_page e = page r).
Proof.
  split.
  - intros n t.
    destruct (scan_preserves_inv fs (take n all_lines) _ scan_inv_init) as [-> _].
    rewrite elem_of_list_to_set, list_elem_of_fmap. split.
    + intros (e & -> & He). by exists e.
    + intros (e & He & <-). by exists e.
  - intros l1 l2 r e -> He Hnone.
    pose proof (proj1 (heading_of_Some _ _ _) He) as (Ht & Hp & _).
    split; [|done].
    assert (Hf : filter (fun x => e_text x = e_text e)
                   (scan fs (l1 ++ r :: l2) ([], ∅)).1 = [e]).
    { apply first_contribution_kept; [done|].
      intros r' e' Hr' He' Heq.
      apply heading_of_Some in He' as (Ht' & _ & _ & _ & _ & Hlv).
      rewrite (Hnone r' Hr') in Hlv; [done | congruence]. }
    assert (Hin : e ∈ filter (fun x => e_text x = e_text e)
                     (scan fs (l1 ++ r :: l2) ([], ∅)).1)
      by (rewrite Hf; by apply list_elem_of_singleton).
    by apply list_elem_of_filter in Hin as [_ Hin].
Qed.

Lemma seen_is_emitted_texts_witness :
  {| e_level := H1; e_text := "Road Map to Prosperity"; e_page := 2 |}
    ∈ (scan (analyze_fonts road_map_lines) road_map_lines ([], ∅)).1
  ∧ e_page {| e_level := H1; e_text := "Road Map to Prosperity"; e_page := 2 |}
    = page (run "Road Map to Prosperity" (14 # 1) 2).
Proof.
  apply (proj2 (seen_is_emitted_texts (analyze_fonts road_map_lines) road_map_lines)
           (take 4 road_map_lines) (drop 5 road_map_lines)
           (run "Road Map to Prosperity" (14 # 1) 2)).
  - reflexivity.
  - vm_compute. reflexivity.
  - intros r' Hr' Ht. vm_compute in Hr'.
    repeat (apply elem_of_cons in Hr' as [-> | Hr']);
      [vm_compute; reflexivity | vm_compute in Ht; discriminate ..|].
    by apply elem_of_nil in Hr'.
Defined.

(** ** Title and outline together *)

Lemma title_untitled (all_lines : list line) :
  page1_large (analyze_fonts all_lines) all_lines = [] →
  title (extract_outline all_lines) = "Untitled".
Proof. unfold extract_outline. simpl. by intros ->. Qed.

(** C10. A run of page 1 can give the title its text and the outline an
    entry with that same text; more generally every run, title candidate
    or not, that passes the gates and is given a level has its text among
    the entries. *)
Theorem title_run_also_entry :
  (∃ (all_lines : list line) (r : line),
     r ∈ all_lines ∧ page r = 1
     ∧ page1_large (analyze_fonts all_lines) all_lines = [r]
     ∧ title (extract_outline all_lines) = text r
     ∧ {| e_level := H2; e_text := text r; e_page := 1 |}
         ∈ outline (extract_outline all_lines))
  ∧
  (∀ (all_lines : list line) (r : line) (e : entry),
     r ∈ page1_large (analyze_fonts all_lines) all_lines →
     heading_of (analyze_fonts all_lines) r = Some e →
     ∃ e', e' ∈ outline (extract_outline all_lines) ∧ e_text e' = clean (text r)).
Proof.
  split.
  - exists [run "Summary" (14 # 1) 1], (run "Summary" (14 # 1) 1).
    split; [by apply list_elem_of_singleton|].
    split; [done|]. split; [by vm_compute|]. split; [by vm_compute|].
    vm_compute. by apply list_elem_of_singleton.
  - intros all_lines r e Hr He.
    pose proof (proj1 (heading_of_Some _ _ _) He) as (<- & _).
    rewrite outline_scan. apply (contributed_text_kept _ _ r); [|done].
    unfold page1_large in Hr.
    apply (sublist_subseteq _ _ (sublist_take _ _)) in Hr.
    apply list_elem_of_In, filter_In in Hr as [Hr _]. by apply list_elem_of_In.
Qed.

Lemma title_run_also_entry_witness :
  ∃ e', e' ∈ outline (extract_outline three_page_lines)
        ∧ e_text e' = clean (text (run "Summary" (14 # 1) 1)).
Proof.
  apply (proj2 title_run_also_entry three_page_lines (run "Summary" (14 # 1) 1)
           {| e_level := H2; e_text := "Summary"; e_page := 1 |}).
  - vm_compute. apply elem_of_cons. by left.
  - vm_compute. reflexivity.
Defined.

(** ** The bold flag *)

Lemma same_but_bold_sizes (l1 l2 : list line) :
  Forall2 same_but_bold l1 l2 → map size l1 = map size l2.
Proof.
  induction 1 as [|a b l1 l2 (_ & Hs & _) _ IH]; [done|]. simpl. by rewrite Hs, IH.
Qed.

Lemma same_but_bold_fonts (l1 l2 : list line) :
  Forall2 same_but_bold l1 l2 → analyze_fonts l1 = analyze_fonts l2.
Proof. intros H. unfold analyze_fonts. by rewrite (same_but_bold_sizes l1 l2). Qed.

Lemma same_but_bold_candidates (fs : font_stats) (l1 l2 : list line) :
  Forall2 same_but_bold l1 l2 →
  Forall2 same_but_bold (List.filter (title_candidate fs) l1)
                        (List.filter (title_candidate fs) l2).
Proof.
  induction 1 as [|a b l1 l2 Hab _ IH]; [constructor|]. simpl.
  assert (title_candidate fs a = title_candidate fs b) as ->.
  { destruct Hab as (Ht & Hs & Hp). unfold title_candidate. by rewrite Ht, Hs, Hp. }
  destruct (title_candidate fs b); [by constructor | done].
Qed.

Lemma same_but_bold_texts (l1 l2 : list line) :
  Forall2 same_but_bold l1 l2 → map text l1 = map text l2.
Proof.
  induction 1 as [|a b l1 l2 (Ht & _) _ IH]; [done|]. simpl. by rewrite Ht, IH.
Qed.

Lemma same_but_bold_scan (fs : font_stats) (l1 l2 : list line) (st : scan_state) :
  Forall2 same_but_bold l1 l2 → scan fs l1 st = scan fs l2 st.
Proof.
  intros H. revert st. induction H as [|a b l1 l2 (Ht & Hs & Hp) _ IH]; intros st; [done|].
  rewrite !scan_cons.
  assert (scan_step fs st a = scan_step fs st b) as ->; [|apply IH].
  unfold scan_step. by rewrite Ht, Hs, Hp.
Qed.

(** C6. Two run streams that agree on every text, size and page, and so
    differ at most in bold flags, give the same title and the same
    entries. *)
Theorem bold_noninterference (lines1 lines2 : list line) :
  Forall2 same_but_bold lines1 lines2 →
  extract_outline lines1 = extract_outline lines2.
Proof.
  intros H. unfold extract_outline, page1_large.
  rewrite <- (same_but_bold_fonts lines1 lines2 H).
  rewrite (same_but_bold_scan _ lines1 lines2 _ H).
  rewrite (same_but_bold_texts
             (take 3 (List.filter (title_candidate (analyze_fonts lines1)) lines1))
             (take 3 (List.filter (title_candidate (analyze_fonts lines1)) lines2))).
  - done.
  - by apply Forall2_take, same_but_bold_candidates.
Qed.

Lemma bold_noninterference_witness :
  extract_outline
    [ Line "Summary" (14 # 1) true 1; Line "Timeline" (12 # 1) false 2 ]
  = extract_outline
    [ Line "Summary" (14 # 1) false 1; Line "Timeline" (12 # 1) true 2 ].
Proof.
  apply bold_noninterference.
  repeat constructor.
Defined.

(** ** Degenerate inputs *)

Lemma scan_nothing (fs : font_stats) (ls : list line) (st : scan_state) :
  (∀ l, l ∈ ls → heading_of fs l = None) → scan fs ls st = st.
Proof.
  revert st. induction ls as [|l ls IH]; intros st H; [done|].
  rewrite scan_cons, scan_step_heading, (H l) by (apply elem_of_cons; by left).
  apply IH. intros l' Hl'. apply H, elem_of_cons. by right.
Qed.

Lemma filter_none {A} (f : A → bool) (l : list A) :
  (∀ x, x ∈ l → f x = false) → List.filter f l = [].
Proof.
  induction l as [|x l IH]; intros H; [done|]. simpl.
  rewrite (H x) by (apply elem_of_cons; by left).
  apply IH. intros y Hy. apply H, elem_of_cons. by right.
Qed.

(** C8. [extract_outline] is a total function.  The empty stream gives
    the title "Untitled" and no entries; a stream without title candidates
    gives the title "Untitled"; a stream without structural headings gives
    no entries. *)
Theorem degenerate_inputs :
  extract_outline [] = {| title := "Untitled"; outline := [] |}
  ∧ (∀ all_lines : list line,
       (∀ l, l ∈ all_lines →
             title_candidate (analyze_fonts all_lines) l = false) →
       title (extract_outline all_lines) = "Untitled")
  ∧ (∀ all_lines : list line,
       (∀ l, l ∈ all_lines → is_structural_heading (clean (text l)) = false) →
       outline (extract_outline all_lines) = []).
Proof.
  split; [done|]. split.
  - intros all_lines H. apply title_untitled. unfold page1_large.
    by rewrite filter_none.
  - intros all_lines H. rewrite outline_scan, scan_nothing; [done|].
    intros l Hl. unfold heading_of. rewrite (H l Hl). simpl.
    by rewrite !orb_true_r.
Qed.

Lemma degenerate_inputs_witness :
  title (extract_outline prose_only_lines) = "Untitled"
  ∧ outline (extract_outline prose_only_lines) = [].
Proof.
  split.
  - apply (proj1 (proj2 degenerate_inputs) prose_only_lines).
    intros l Hl. vm_compute in Hl.
    repeat (apply elem_of_cons in Hl as [-> | Hl]); [vm_compute; reflexivity ..|].
    by apply elem_of_nil in Hl.
  - apply (proj2 (proj2 degenerate_inputs) prose_only_lines).
    intros l Hl. vm_compute in Hl.
    repeat (apply elem_of_cons in Hl as [-> | Hl]); [vm_compute; reflexivity ..|].
    by apply elem_of_nil in Hl.
Defined.

(** ** The title *)

Lemma filter_bool_prop {A} (f : A → bool) (P : A → Prop)
    `{!∀ x, Decision (P x)} (l : list A) :
  (∀ x, x ∈ l → f x = true ↔ P x) → List.filter f l = filter P l.
Proof.
  induction l as [|x l IH]; intros Hfp; [done|]. simpl.
  rewrite filter_cons, IH by (intros y Hy; apply Hfp, elem_of_cons; by right).
  specialize (Hfp x ltac:(apply elem_of_cons; by left)).
  destruct (f x), (decide (P x)) as [Hp|Hp]; try done.
  - by destruct Hp; apply Hfp.
  - by apply Hfp in Hp.
Qed.

Lemma page1_large_candidates (all_lines : list line) :
  Forall (fun l => normalized (text l)) all_lines →
  page1_large (analyze_fonts all_lines) all_lines
  = first_three_candidates (analyze_fonts all_lines) all_lines.
Proof.
  intros Hn. unfold page1_large, first_three_candidates. f_equal.
  apply filter_bool_prop. intros l Hl.
  rewrite Forall_forall in Hn. rewrite (Hn l Hl).
  unfold title_candidate, size_ge.
  rewrite !andb_true_iff, Z.eqb_eq, Qle_bool_iff, negb_true_iff. tauto.
Qed.

Lemma join_sp_nonempty (ts : list string) :
  Forall (fun t => normalized t ∧ t ≠ "") ts → ts ≠ [] →
  String.eqb (clean (join_sp ts)) "" = false.
Proof.
  intros H Hne. destruct (normalized_join ts H) as [-> Hj].
  apply String.eqb_neq. by apply Hj.
Qed.

(** C5. With every run text normalized and non-empty, as the data model
    has it, the title is the single-blank join of the normalized texts of
    the first three candidates of page 1, and "Untitled" when there is no
    candidate.  Any stream without a page-1 run at or above the medium
    size has the title "Untitled". *)
Theorem title_derivation (all_lines : list line) :
  (Forall (fun l => normalized (text l) ∧ text l ≠ "") all_lines →
   title (extract_outline all_lines)
   = match first_three_candidates (analyze_fonts all_lines) all_lines with
     | [] => "Untitled"
     | cands => join_sp (map (fun l => clean (text l)) cands)
     end)
  ∧
  ((∀ l, l ∈ all_lines → page l = 1 →
         ¬ (medium_size (analyze_fonts all_lines) <= size l)%Q) →
   title (extract_outline all_lines) = "Untitled").
Proof.
  split.
  - intros Hn.
    assert (Hn1 : Forall (fun l => normalized (text l)) all_lines)
      by (eapply Forall_impl; [exact Hn | by intros l [? _]]).
    rewrite <- (page1_large_candidates all_lines Hn1).
    assert (Hc : Forall (fun l => normalized (text l) ∧ text l ≠ "")
                   (page1_large (analyze_fonts all_lines) all_lines)).
    { apply Forall_forall. intros l Hl. rewrite Forall_forall in Hn. apply Hn.
      unfold page1_large in Hl.
      apply (sublist_subseteq _ _ (sublist_take _ _)) in Hl.
      apply list_elem_of_In, filter_In in Hl as [Hl _]. by apply list_elem_of_In. }
    unfold extract_outline. cbn [title].
    destruct (page1_large (analyze_fonts all_lines) all_lines) as [|c cs] eqn:E;
      [done|]. cbv beta iota.
    assert (Ht : Forall (fun t => normalized t ∧ t ≠ "") (map text (c :: cs))).
    { change (map text (c :: cs)) with (text <$> (c :: cs)). by apply Forall_fmap. }
    rewrite (join_sp_nonempty _ Ht) by done.
    destruct (normalized_join _ Ht) as [-> _]. f_equal.
    apply map_ext_in. intros l Hl%list_elem_of_In.
    rewrite Forall_forall in Hc. by destruct (Hc l Hl) as [-> _].
  - intros H. apply title_untitled. unfold page1_large.
    rewrite filter_none; [done|]. intros l Hl. unfold title_candidate, size_ge.
    destruct (Z.eqb_spec (page l) 1) as [Hp|]; [|done].
    destruct (Qle_bool _ _) eqn:E; [|done].
    apply Qle_bool_iff in E. by destruct (H l Hl Hp).
Qed.

Lemma title_derivation_witness :
  title (extract_outline three_page_lines) = "Summary"
  ∧ title (extract_outline prose_only_lines) = "Untitled".
Proof.
  split.
  - apply (proj1 (title_derivation three_page_lines)).
    repeat constructor; vm_compute; congruence.
  - apply (proj2 (title_derivation prose_only_lines)).
    intros l Hl Hp. vm_compute in Hl.
    repeat (apply elem_of_cons in Hl as [-> | Hl]); [vm_compute in Hp; discriminate ..|].
    by apply elem_of_nil in Hl.
Defined.

(** ** Levels *)

Lemma size_ge_spec (a b : Q) : size_ge a b = true ↔ (b <= a)%Q.
Proof. apply Qle_bool_iff. Qed.

Lemma h1_rule_spec (t : string) (s : Q) (fs : font_stats) :
  size_ge s (large_size fs)
  && (contains "Digital Library" t || contains "Critical Component" t) = true
  ↔ h1_rule t s fs.
Proof.
  unfold h1_rule.
  by rewrite andb_true_iff, orb_true_iff, size_ge_spec, !contains_spec.
Qed.

Lemma h2_rule_spec (t : string) :
  String.eqb t "Summary" || String.eqb t "Background"
  || startswith "The Business Plan" t || startswith "Approach and" t
  || startswith "Evaluation and" t || startswith "Appendix" t = true
  ↔ h2_rule t.
Proof.
  unfold h2_rule.
  rewrite !orb_true_iff, !String.eqb_eq, !startswith_spec. tauto.
Qed.

Lemma h3_rule_spec (t : string) :
  startswith "Timeline" t || startswith "Milestones" t
  || startswith "Phase" t || re_match re_number_dot t
  || any_in h3_patterns t = true
  ↔ h3_rule t.
Proof.
  unfold h3_rule.
  rewrite !orb_true_iff, !startswith_spec, re_number_dot_spec, any_in_spec. tauto.
Qed.

Lemma h4_rule_spec (t : string) :
  startswith "For each" t && endswith ":" t = true ↔ h4_rule t.
Proof.
  unfold h4_rule. by rewrite andb_true_iff, startswith_spec, endswith_spec.
Qed.

Lemma reflect_false (b : bool) (P : Prop) : (b = true ↔ P) → b = false → ¬ P.
Proof. intros H Hb HP. apply H in HP. congruence. Qed.

Lemma get_heading_level_sound (t : string) (s : Q) (fs : font_stats) :
  level_rule (strip t) s fs (get_heading_level t s fs).
Proof.
  unfold get_heading_level. generalize (strip t). clear t. intros t.
  destruct (size_ge s (large_size fs) && _) eqn:E1.
  { apply by_h1. by apply h1_rule_spec. }
  apply (reflect_false _ _ (h1_rule_spec t s fs)) in E1.
  destruct (String.eqb t "Summary" || _ || _ || _ || _ || _) eqn:E2.
  { apply by_h2; [done|]. by apply h2_rule_spec. }
  apply (reflect_false _ _ (h2_rule_spec t)) in E2.
  destruct (startswith "Timeline" t || _ || _ || _ || _) eqn:E3.
  { apply by_h3; [done..|]. by apply h3_rule_spec. }
  apply (reflect_false _ _ (h3_rule_spec t)) in E3.
  destruct (startswith "For each" t && _) eqn:E4.
  { apply by_h4; [done..|]. by apply h4_rule_spec. }
  apply (reflect_false _ _ (h4_rule_spec t)) in E4.
  destruct (size_ge s (large_size fs)) eqn:E5.
  { apply by_large; [done..|]. by apply size_ge_spec. }
  apply (reflect_false _ _ (size_ge_spec _ _)) in E5.
  destruct (size_ge s (medium_size fs)) eqn:E6.
  { apply by_medium; [done..|]. by apply size_ge_spec. }
  apply (reflect_false _ _ (size_ge_spec _ _)) in E6.
  by apply by_nothing.
Qed.

Lemma level_rule_functional (t : string) (s : Q) (fs : font_stats)
    (r1 r2 : option level) :
  level_rule t s fs r1 → level_rule t s fs r2 → r1 = r2.
Proof.
  intros Hr1 Hr2. unfold h1_rule in *.
  destruct Hr1; destruct Hr2; try done; tauto.
Qed.

(** A structural run that the listed rules send to H4 and the code to H3:
    it contains "Guidance" but not "Guidance and Advice:". *)
Lemma level_precedence_counterexample :
  clean "For each Guidance item:" = "For each Guidance item:"
  ∧ is_body_text "For each Guidance item:" = false
  ∧ is_structural_heading "For each Guidance item:" = true
  ∧ spec_level "For each Guidance item:" (10 # 1) default_profile = Some H4
  ∧ get_heading_level "For each Guidance item:" (10 # 1) default_profile = Some H3
  ∧ get_heading_level "For each Guidance item:" (10 # 1) default_profile
    ≠ spec_level "For each Guidance item:" (10 # 1) default_profile.
Proof. vm_compute. repeat split; done. Qed.

(** C2, amended.  For a run accepted as structural the level is H1 when
    the size reaches the large tier and the text contains "Digital
    Library" or "Critical Component"; otherwise H2 by the H2 rules;
    otherwise H3 exactly when the text starts with "Timeline",
    "Milestones" or "Phase", starts with digits and a period, or contains
    one of the terms of [h3_patterns]; otherwise H4 when it starts with
    "For each" and ends with a colon; otherwise H1 or H2 by size, and no
    level below the medium tier. *)
Theorem level_precedence (t : string) (s : Q) (fs : font_stats) :
  is_structural_heading t = true →
  ∀ r, get_heading_level t s fs = r ↔ level_rule (strip t) s fs r.
Proof.
  intros _ r. split.
  - intros <-. apply get_heading_level_sound.
  - intros H. exact (level_rule_functional _ _ _ _ _ (get_heading_level_sound t s fs) H).
Qed.

Lemma level_precedence_witness :
  get_heading_level "For each Guidance item:" (10 # 1) default_profile = Some H3
  ↔ level_rule (strip "For each Guidance item:") (10 # 1) default_profile (Some H3).
Proof.
  apply (level_precedence "For each Guidance item:").
  vm_compute. reflexivity.
Defined.

(** ** The font profile *)

Lemma round_half_even_spec (a d : Z) :
  0 < d →
  2 * Z.abs (a - round_half_even a d * d) ≤ d
  ∧ (2 * Z.abs (a - round_half_even a d * d) = d →
     Z.even (round_half_even a d) = true).
Proof.
  intros Hd. unfold round_half_even.
  pose proof (Z.div_mod a d ltac:(lia)) as Hdm.
  pose proof (Z.mod_pos_bound a d Hd) as Hr.
  set (f := a / d) in *. set (r := a mod d) in *.
  destruct (Z.ltb_spec (2 * r) d) as [H1|H1].
  { replace (a - f * d) with r by lia. split; lia. }
  destruct (Z.ltb_spec d (2 * r)) as [H2|H2].
  { replace (a - (f + 1) * d) with (r - d) by lia. split; lia. }
  destruct (Z.even f) eqn:Ef.
  - replace (a - f * d) with r by lia. split; [lia | done].
  - replace (a - (f + 1) * d) with (r - d) by lia. split; [lia|].
    intros _. by rewrite Z.add_1_r, Z.even_succ, <- Z.negb_even, Ef.
Qed.

Lemma round1_tenth (x : Q) : tenth (round1 x).
Proof. done. Qed.

Lemma round1_nearest (x : Q) :
  (Qabs (x - round1 x) <= 1 # 20)%Q
  ∧ ((Qabs (x - round1 x) == 1 # 20)%Q → Z.even (Qnum (round1 x)) = true).
Proof.
  destruct x as [n d].
  destruct (round_half_even_spec (n * 10) (Zpos d) ltac:(lia)) as [H1 H2].
  unfold round1, Qminus, Qplus, Qopp, Qabs, Qle, Qeq. simpl Qnum. simpl Qden.
  set (k := round_half_even (n * 10) (Z.pos d)) in *.
  rewrite Pos2Z.inj_mul. split; [lia|]. intros H. apply H2. lia.
Qed.

Lemma tenth_eq (a b : Q) :
  tenth a → tenth b → Qeq_bool a b = true ↔ a = b.
Proof.
  destruct a as [n d], b as [m e]. unfold tenth. simpl. intros -> ->.
  rewrite Qeq_bool_iff. unfold Qeq. simpl. split.
  - intros H. f_equal. lia.
  - by intros [= ->].
Qed.

Lemma tenth_neq (a b : Q) :
  tenth a → tenth b → a ≠ b → Qeq_bool a b = false.
Proof.
  intros Ha Hb Hne. apply not_true_iff_false. by rewrite tenth_eq.
Qed.

Lemma occurrences_snoc (q : Q) (sizes : list Q) (s : Q) :
  occurrences q (sizes ++ [s])
  = occurrences q sizes + (if decide (round1 s = q) then 1 else 0).
Proof.
  unfold occurrences. rewrite filter_app, length_app, filter_cons, filter_nil.
  destruct (decide (round1 s = q)); simpl; lia.
Qed.

Lemma occurrences_none (q : Q) (sizes : list Q) :
  q ∉ round1 <$> sizes → occurrences q sizes = 0.
Proof.
  intros H. unfold occurrences.
  destruct (filter _ sizes) as [|s k] eqn:E; [done|]. exfalso. apply H.
  assert (Hs : s ∈ filter (fun s => round1 s = q) sizes)
    by (rewrite E; apply elem_of_cons; by left).
  apply list_elem_of_filter in Hs as [<- Hs]. by apply list_elem_of_fmap_2.
Qed.

Lemma incr_fresh (k : Q) (d : list (Q * Z)) :
  tenth k → Forall tenth d.*1 → k ∉ d.*1 → incr k d = d ++ [(k, 1)].
Proof.
  intros Hk. induction d as [|[k' n] d IH]; intros Ht Hn; [done|].
  rewrite fmap_cons in Ht, Hn. apply Forall_cons in Ht as [Hk' Ht].
  apply not_elem_of_cons in Hn as [Hne Hn]. simpl.
  rewrite (tenth_neq k' k) by done. by rewrite IH.
Qed.

Lemma incr_known (k : Q) (c0 : Z) (d1 d2 : list (Q * Z)) :
  tenth k → Forall tenth d1.*1 → k ∉ d1.*1 →
  incr k (d1 ++ (k, c0) :: d2) = d1 ++ (k, c0 + 1) :: d2.
Proof.
  intros Hk. induction d1 as [|[k' n] d1 IH]; intros Ht Hn.
  - simpl. by rewrite (proj2 (tenth_eq k k Hk Hk)).
  - rewrite fmap_cons in Ht, Hn. apply Forall_cons in Ht as [Hk' Ht].
    apply not_elem_of_cons in Hn as [Hne Hn]. simpl.
    rewrite (tenth_neq k' k) by done. by rewrite IH.
Qed.

Lemma counts_of_key (sizes : list Q) (d : list (Q * Z)) (q : Q) :
  counts_of sizes d → q ∈ d.*1 ↔ q ∈ round1 <$> sizes.
Proof.
  intros (_ & _ & H). split.
  - intros ([q' c] & -> & Hin)%list_elem_of_fmap. by apply H in Hin as [? _].
  - intros Hq. apply list_elem_of_fmap. exists (q, occurrences q sizes).
    split; [done|]. by apply H.
Qed.

Lemma counts_of_step (sizes : list Q) (d : list (Q * Z)) (s : Q) :
  counts_of sizes d → counts_of (sizes ++ [s]) (incr (round1 s) d).
Proof.
  intros Hd. pose proof Hd as (Hnd & Hten & Hel).
  set (k := round1 s). assert (Hk : tenth k) by apply round1_tenth.
  assert (Hnew : ∀ q, q ∈ round1 <$> (sizes ++ [s]) ↔ q ∈ round1 <$> sizes ∨ q = k).
  { intros q. rewrite fmap_app, elem_of_app. simpl.
    by rewrite list_elem_of_singleton. }
  destruct (decide (k ∈ d.*1)) as [Hin|Hin].
  - apply list_elem_of_fmap in Hin as ([k' c0] & Hk' & Hin). simpl in Hk'. subst k'.
    pose proof (proj1 (Hel k c0) Hin) as [Hks Hc0].
    apply list_elem_of_split in Hin as (d1 & d2 & ->).
    rewrite fmap_app, fmap_cons in Hnd, Hten. simpl in Hnd, Hten.
    apply NoDup_app in Hnd as (Hnd1 & Hnd12 & Hnd2).
    apply NoDup_cons in Hnd2 as [Hk2 Hnd2].
    assert (Hk1 : k ∉ d1.*1).
    { intros H. apply (Hnd12 k H). apply elem_of_cons. by left. }
    apply Forall_app in Hten as [Hten1 Hten2].
    rewrite incr_known by done.
    split; [|split].
    + rewrite fmap_app, fmap_cons. simpl. apply NoDup_app. split; [done|].
      split; [done|]. by apply NoDup_cons.
    + rewrite fmap_app, fmap_cons. simpl. by apply Forall_app.
    + intros q c. rewrite Hnew, occurrences_snoc. fold k.
      rewrite elem_of_app, elem_of_cons. split.
      * intros [H|[[= -> ->]|H]].
        -- assert (q ≠ k) by (intros ->; apply Hk1; by apply (list_elem_of_fmap_2 fst _ (k, c))).
           destruct (proj1 (Hel q c)) as [Hq ->].
           { apply elem_of_app. by left. }
           rewrite decide_False by done. split; [by left | lia].
        -- rewrite decide_True by done. split; [by right | lia].
        -- assert (q ≠ k) by (intros ->; apply Hk2; by apply (list_elem_of_fmap_2 fst _ (k, c))).
           destruct (proj1 (Hel q c)) as [Hq ->].
           { apply elem_of_app. right. apply elem_of_cons. by right. }
           rewrite decide_False by done. split; [by left | lia].
      * intros [Hq ->]. destruct (decide (k = q)) as [<-|Hne].
        -- right. left. by rewrite Hc0.
        -- destruct Hq as [Hq|Hq]; [|done].
           assert (Hm : (q, occurrences q sizes) ∈ d1 ++ (k, c0) :: d2) by by apply Hel.
           rewrite Z.add_0_r.
           apply elem_of_app in Hm as [Hm|Hm]; [by left|].
           apply elem_of_cons in Hm as [Hm|Hm]; [by injection Hm as -> _|].
           right. by right.
  - assert (Hks : k ∉ round1 <$> sizes) by by rewrite <- (counts_of_key sizes d k).
    rewrite incr_fresh by done.
    split; [|split].
    + rewrite fmap_app. simpl. apply NoDup_app. split; [done|]. split.
      * intros q Hq ->%list_elem_of_singleton. done.
      * apply NoDup_singleton.
    + rewrite fmap_app. simpl. apply Forall_app. split; [done|]. by apply Forall_singleton.
    + intros q c. rewrite Hnew, occurrences_snoc. fold k.
      rewrite elem_of_app, list_elem_of_singleton. split.
      * intros [H|[= -> ->]].
        -- destruct (proj1 (Hel q c) H) as [Hq ->].
           assert (k ≠ q) by (by intros <-).
           rewrite decide_False by done. split; [by left | lia].
        -- rewrite decide_True by done. rewrite occurrences_none by done.
           split; [by right | done].
      * intros [Hq ->]. destruct (decide (k = q)) as [<-|Hne].
        -- right. by rewrite occurrences_none.
        -- destruct Hq as [Hq|Hq]; [|done]. left. rewrite Z.add_0_r. by apply Hel.
Qed.

Lemma count_sizes_snoc (sizes : list Q) (s : Q) :
  count_sizes (sizes ++ [s]) = incr (round1 s) (count_sizes sizes).
Proof. unfold count_sizes. by rewrite fold_left_app. Qed.

Lemma count_sizes_spec (sizes : list Q) : counts_of sizes (count_sizes sizes).
Proof.
  induction sizes as [|s sizes IH] using rev_ind.
  - split; [constructor|]. split; [constructor|].
    intros q c. split; [by intros ?%elem_of_nil | by intros [?%elem_of_nil _]].
  - rewrite count_sizes_snoc. by apply counts_of_step.
Qed.

Lemma Qopp_le_iff (a b : Q) : (- a <= - b)%Q ↔ (b <= a)%Q.
Proof. unfold Qle, Qopp. simpl. lia. Qed.

Lemma key_lt_false (x y : Q * Z) :
  key_lt (sort_key y) (sort_key x) = false ↔ ranks_before x y.
Proof.
  unfold key_lt, sort_key, ranks_before. simpl.
  destruct (Z.eqb_spec (- y.2) (- x.2)) as [He|Hne].
  - rewrite negb_false_iff, Qle_bool_iff, Qopp_le_iff. split.
    + intros H. right. split; [lia | done].
    + intros [H|[_ H]]; [lia | done].
  - rewrite Z.ltb_ge. split.
    + intros H. left. lia.
    + intros [H|[H _]]; lia.
Qed.

Lemma key_lt_true (x y : Q * Z) :
  key_lt (sort_key y) (sort_key x) = true → ranks_before y x.
Proof.
  unfold key_lt, sort_key, ranks_before. simpl.
  destruct (Z.eqb_spec (- y.2) (- x.2)) as [He|Hne].
  - rewrite negb_true_iff. intros H. right. split; [lia|].
    apply Qlt_le_weak, Qnot_le_lt. intros Hle.
    apply Qopp_le_iff, Qle_bool_iff in Hle. congruence.
  - rewrite Z.ltb_lt. intros H. left. lia.
Qed.

#[local] Instance ranks_before_trans : Transitive ranks_before.
Proof.
  intros x y z [H1|[H1 H1']] [H2|[H2 H2']]; unfold ranks_before.
  - left. lia.
  - left. lia.
  - left. lia.
  - right. split; [lia|]. by apply (Qle_trans _ y.1).
Qed.

Lemma insert_by_key_perm (x : Q * Z) (l : list (Q * Z)) :
  insert_by_key x l ≡ₚ x :: l.
Proof.
  induction l as [|y l IH]; [done|]. simpl.
  destruct (key_lt _ _); [|done]. rewrite IH. apply Permutation_swap.
Qed.

Lemma sorted_by_key_perm (l : list (Q * Z)) : sorted_by_key l ≡ₚ l.
Proof.
  induction l as [|x l IH]; [done|]. simpl.
  by rewrite insert_by_key_perm, IH.
Qed.

Lemma insert_by_key_hd (x y : Q * Z) (l : list (Q * Z)) :
  HdRel ranks_before y l → ranks_before y x →
  HdRel ranks_before y (insert_by_key x l).
Proof.
  intros Hl Hx. destruct l as [|z l]; simpl; [by constructor|].
  destruct (key_lt _ _); constructor; [|done]. by inversion Hl.
Qed.

Lemma insert_by_key_sorted (x : Q * Z) (l : list (Q * Z)) :
  Sorted ranks_before l → Sorted ranks_before (insert_by_key x l).
Proof.
  induction l as [|y l IH]; intros Hs; simpl.
  - by repeat constructor.
  - apply Sorted_inv in Hs as [Hs Hhd].
    destruct (key_lt (sort_key y) (sort_key x)) eqn:E.
    + constructor; [by apply IH|].
      apply insert_by_key_hd; [done | by apply key_lt_true].
    + constructor; [by constructor|]. constructor. by apply key_lt_false.
Qed.

Lemma sorted_by_key_sorted (l : list (Q * Z)) :
  StronglySorted ranks_before (sorted_by_key l).
Proof.
  apply Sorted_StronglySorted; [apply _|].
  induction l as [|x l IH]; simpl; [constructor | by apply insert_by_key_sorted].
Qed.

Lemma StronglySorted_lookup_lt {A} (R : relation A) (l : list A)
    (i j : nat) (x y : A) :
  StronglySorted R l → (i < j)%nat →
  l !! i = Some x → l !! j = Some y → R x y.
Proof.
  intros Hs. revert i j. induction Hs as [|z l Hs IH Hz]; intros i j Hij Hi Hj.
  - by rewrite lookup_nil in Hi.
  - destruct j as [|j]; [lia|]. simpl in Hj. destruct i as [|i].
    + simpl in Hi. injection Hi as ->. rewrite Forall_forall in Hz.
      apply Hz. by apply list_elem_of_lookup_2 in Hj.
    + simpl in Hi. apply (IH i j); [lia | done..].
Qed.

Lemma tier_lookup (l : list (Q * Z)) (i : nat) (dflt : Q) :
  tier l i dflt = default dflt (fst <$> l !! i).
Proof. unfold tier. by destruct (l !! i). Qed.

(** C4.  [round1] takes a size to the nearest multiple of one tenth
    (ties to the even one).  The sizes are counted per rounded size; the
    distinct rounded sizes are ranked by falling count and, among equal
    counts, by falling size; the first three of that ranking are the
    large, medium and body sizes, and 14, 12 and 11 stand in for the
    places the ranking does not have.  [analyze_fonts] is total, and the
    empty stream gives the three defaults. *)
Theorem font_profile (all_lines : list line) :
  (∀ x, tenth (round1 x)
        ∧ (Qabs (x - round1 x) <= 1 # 20)%Q
        ∧ ((Qabs (x - round1 x) == 1 # 20)%Q →
           Z.even (Qnum (round1 x)) = true))
  ∧ analyze_fonts []
    = {| large_size := 14 # 1; medium_size := 12 # 1; body_size := 11 # 1 |}
  ∧ ∃ ranked : list (Q * Z),
      NoDup ranked.*1
      ∧ (∀ q c, (q, c) ∈ ranked ↔
                q ∈ round1 <$> map size all_lines
                ∧ c = occurrences q (map size all_lines))
      ∧ (∀ i j x y, (i < j)%nat →
           ranked !! i = Some x → ranked !! j = Some y →
           y.2 < x.2 ∨ (y.2 = x.2 ∧ (y.1 < x.1)%Q))
      ∧ large_size (analyze_fonts all_lines)
        = default (14 # 1) (fst <$> ranked !! 0%nat)
      ∧ medium_size (analyze_fonts all_lines)
        = default (12 # 1) (fst <$> ranked !! 1%nat)
      ∧ body_size (analyze_fonts all_lines)
        = default (11 # 1) (fst <$> ranked !! 2%nat).
Proof.
  split.
  { intros x. split; [apply round1_tenth | apply round1_nearest]. }
  split; [done|].
  exists (sorted_by_key (count_sizes (map size all_lines))).
  destruct (count_sizes_spec (map size all_lines)) as (Hnd & Hten & Hel).
  pose proof (sorted_by_key_perm (count_sizes (map size all_lines))) as Hp.
  assert (Hnd' : NoDup (sorted_by_key (count_sizes (map size all_lines))).*1)
    by by rewrite Hp.
  split; [done|]. split; [|split].
  - intros q c. by rewrite Hp.
  - intros i j x y Hij Hi Hj.
    pose proof (StronglySorted_lookup_lt _ _ i j x y
                  (sorted_by_key_sorted _) Hij Hi Hj) as Hr.
    destruct Hr as [Hr|[Hr Hle]]; [by left|]. right. split; [done|].
    apply Qle_lteq in Hle as [Hlt|Heq]; [done|]. exfalso.
    assert (Hx : tenth x.1 ∧ tenth y.1).
    { rewrite <- Hp in Hten. rewrite Forall_forall in Hten.
      split; apply Hten, list_elem_of_fmap_2; by eapply list_elem_of_lookup_2. }
    destruct Hx as [Hx Hy].
    apply Qeq_bool_iff, tenth_eq in Heq; [|done..].
    assert (i = j); [|lia].
    apply (NoDup_lookup _ i j y.1 Hnd'); rewrite list_lookup_fmap.
    + by rewrite Hi, Heq.
    + by rewrite Hj.
  - unfold analyze_fonts. simpl. by rewrite !tier_lookup.
Qed.

Lemma font_profile_witness :
  analyze_fonts mixed_size_lines
  = {| large_size := 125 # 10; medium_size := 120 # 10; body_size := 25 # 10 |}
  ∧ ∃ ranked : list (Q * Z),
      NoDup ranked.*1
      ∧ (∀ q c, (q, c) ∈ ranked ↔
                q ∈ round1 <$> map size mixed_size_lines
                ∧ c = occurrences q (map size mixed_size_lines))
      ∧ (∀ i j x y, (i < j)%nat →
           ranked !! i = Some x → ranked !! j = Some y →
           y.2 < x.2 ∨ (y.2 = x.2 ∧ (y.1 < x.1)%Q))
      ∧ large_size (analyze_fonts mixed_size_lines)
        = default (14 # 1) (fst <$> ranked !! 0%nat)
      ∧ medium_size (analyze_fonts mixed_size_lines)
        = default (12 # 1) (fst <$> ranked !! 1%nat)
      ∧ body_size (analyze_fonts mixed_size_lines)
        = default (11 # 1) (fst <$> ranked !! 2%nat).
Proof.
  split; [by vm_compute|].
  apply (proj2 (proj2 (font_profile mixed_size_lines))).
Defined.

(** ** Collecting the runs: sample evaluations *)

Example collect_sample :
  collect_lines sample_document
  = [ Line "Ontario Digital Library" (20 # 1) true 1;
      Line "Summary" (14 # 1) true 2;
      Line "Plain words of the text" (30 # 1) false 2 ].
Proof. by vm_compute. Qed.

Example collect_blank : collect_lines blank_document = [].
Proof. reflexivity. Qed.

(** ** More on [clean] *)

Lemma single_blanks_sub (s : string) : single_blanks (sub_spaces s) = true.
Proof.
  induction s as [|c s IH]; [done|]. simpl.
  destruct (is_space c) eqn:Ec.
  - destruct (starts_space s) eqn:Es; [done|].
    cbn [single_blanks]. rewrite IH, (starts_space_sub s Es). done.
  - cbn [single_blanks]. by rewrite Ec, IH.
Qed.

Lemma single_blanks_fixed (s : string) :
  single_blanks s = true → sub_spaces s = s.
Proof.
  induction s as [|c s IH]; [done|]. cbn [single_blanks sub_spaces].
  intros [Hc Hs]%andb_true_iff. rewrite (IH Hs).
  destruct (is_space c); [|done].
  apply andb_true_iff in Hc as [->%ascii_eqb_true Hn].
  apply negb_true_iff in Hn. by rewrite Hn.
Qed.

Lemma normalized_clean (t : string) : normalized (clean t).
Proof.
  apply normalized_intro; [apply clean_trimmed|].
  apply single_blanks_fixed, single_blanks_sub.
Qed.

Lemma single_blanks_app_r (a b : string) :
  single_blanks (a +:+ b) = true → single_blanks b = true.
Proof.
  induction a as [|c a IH]; [done|]. simpl.
  intros [_ H]%andb_true_iff. by apply IH.
Qed.

Lemma single_blanks_before (a x : string) :
  single_blanks (a +:+ x) = true → starts_space x = true → ends_space a = false.
Proof.
  intros H Hx. induction a as [|c a IH]; [done|].
  simpl in H. apply andb_true_iff in H as [Hc H].
  destruct a as [|c' a].
  - simpl in *. destruct (is_space c); [|done].
    rewrite Hx in Hc. by rewrite andb_false_r in Hc.
  - rewrite ends_space_cons by done. by apply IH.
Qed.

(** X1.  Cleaning twice is cleaning once, and in a cleaned text every
    white-space character is a single blank strictly inside the text, with
    no white space on either side of it. *)
Theorem clean_idempotent_single_blanks (t : string) :
  clean (clean t) = clean t
  ∧ ∀ (a : string) (c : ascii) (b : string),
      clean t = a +:+ String c b → is_space c = true →
      c = " "%char ∧ a ≠ "" ∧ b ≠ ""
      ∧ ends_space a = false ∧ starts_space b = false.
Proof.
  split; [apply normalized_clean|].
  intros a c b Ht Hc.
  destruct (clean_trimmed t) as [Hs He].
  assert (Hsb : single_blanks (a +:+ String c b) = true)
    by (rewrite <- Ht; apply single_blanks_sub).
  pose proof (single_blanks_app_r _ _ Hsb) as Hcb.
  cbn [single_blanks] in Hcb. rewrite Hc in Hcb.
  apply andb_true_iff in Hcb as [[->%ascii_eqb_true Hb]%andb_true_iff _].
  apply negb_true_iff in Hb. rewrite Ht in Hs, He.
  repeat split; try done.
  - intros ->. simpl in Hs. congruence.
  - intros ->. rewrite ends_space_app in He by done. simpl in He. congruence.
  - by apply (single_blanks_before a (String " " b)).
Qed.

Lemma has_ink_app (a b : string) : has_ink (a +:+ b) = has_ink a || has_ink b.
Proof. induction a as [|c a IH]; [done|]. simpl. by rewrite IH, orb_assoc. Qed.

Lemma has_ink_lstrip (s : string) : has_ink (lstrip s) = has_ink s.
Proof.
  induction s as [|c s IH]; [done|]. simpl.
  destruct (is_space c) eqn:E; simpl; [done | by rewrite E].
Qed.

Lemma has_ink_rstrip (s : string) : has_ink (rstrip s) = has_ink s.
Proof.
  induction s as [|c s IH]; [done|]. simpl. rewrite <- IH.
  destruct (rstrip s) as [|c' r]; [|done].
  simpl. rewrite orb_false_r. destruct (is_space c) eqn:E; simpl; [done|].
  by rewrite E.
Qed.

Lemma has_ink_sub (s : string) : has_ink (sub_spaces s) = has_ink s.
Proof.
  induction s as [|c s IH]; [done|]. simpl.
  destruct (is_space c) eqn:E; simpl.
  - destruct (starts_space s); [done|]. simpl. done.
  - by rewrite E, IH.
Qed.

Lemma has_ink_clean (t : string) : has_ink (clean t) = has_ink t.
Proof. unfold clean, strip. by rewrite has_ink_sub, has_ink_rstrip, has_ink_lstrip. Qed.

Lemma trimmed_ink (s : string) : trimmed s → s ≠ "" → has_ink s = true.
Proof. intros [Hs _] Hne. destruct s as [|c s]; [done|]. simpl in *. by rewrite Hs. Qed.

Lemma has_ink_nonempty (s : string) : has_ink s = true → s ≠ "".
Proof. by destruct s. Qed.

Lemma clean_nonempty_ink (t : string) : clean t ≠ "" ↔ has_ink t = true.
Proof.
  rewrite <- has_ink_clean. split.
  - apply trimmed_ink, clean_trimmed.
  - apply has_ink_nonempty.
Qed.

Lemma strip_nonempty_ink (t : string) : strip t ≠ "" ↔ has_ink t = true.
Proof.
  assert (has_ink (strip t) = has_ink t) as <-
    by (unfold strip; by rewrite has_ink_rstrip, has_ink_lstrip).
  split; [apply trimmed_ink, strip_trimmed | apply has_ink_nonempty].
Qed.

Lemma has_ink_spec (s : string) :
  has_ink s = true ↔ ∃ a c b, s = a +:+ String c b ∧ is_space c = false.
Proof.
  induction s as [|c s IH]; simpl.
  - split; [done|]. intros (a & c & b & H & _). by destruct a.
  - rewrite orb_true_iff, negb_true_iff, IH. split.
    + intros [H|(a & c' & b & -> & H)].
      * by exists "", c, s.
      * by exists (String c a), c', b.
    + intros (a & c' & b & H & Hc). destruct a as [|c0 a]; simpl in H.
      * injection H as -> ->. by left.
      * injection H as -> ->. right. by exists a, c', b.
Qed.

(** X2.  A text cleans to the empty string exactly when all its characters are
    white space. *)
Theorem clean_empty_iff_blank (t : string) :
  clean t = ""
  ↔ ∀ (a : string) (c : ascii) (b : string),
      t = a +:+ String c b → is_space c = true.
Proof.
  split.
  - intros H a c b Ht. destruct (is_space c) eqn:Ec; [done|]. exfalso.
    apply (proj2 (clean_nonempty_ink t)); [|done].
    apply has_ink_spec. by exists a, c, b.
  - intros H. destruct (decide (clean t = "")) as [|Hne]; [done|]. exfalso.
    apply clean_nonempty_ink, has_ink_spec in Hne as (a & c & b & Ht & Hc).
    rewrite (H a c b Ht) in Hc. done.
Qed.

(** ** Collecting the runs *)

Lemma has_text_ink (sp : span) : has_text sp = true ↔ has_ink (span_text sp) = true.
Proof.
  unfold has_text. rewrite negb_true_iff, <- strip_nonempty_ink.
  by rewrite String.eqb_neq.
Qed.

Lemma has_ink_join_head (t : string) (ts : list string) :
  has_ink t = true → has_ink (join_sp (t :: ts)) = true.
Proof.
  intros Ht. destruct ts as [|u ts]; [done|].
  rewrite join_sp_cons, has_ink_app, Ht. done.
Qed.

Lemma text_parts_nonempty (spans : list span) :
  map span_text (List.filter has_text spans) ≠ []
  ↔ ∃ sp, sp ∈ spans ∧ has_text sp = true.
Proof.
  split.
  - destruct (List.filter has_text spans) as [|sp k] eqn:E; [done|]. intros _.
    assert (Hin : In sp (List.filter has_text spans)) by (rewrite E; by left).
    apply filter_In in Hin as [Hin Ht]. exists sp. by rewrite list_elem_of_In.
  - intros (sp & Hin & Ht) Hnil.
    assert (Hf : In sp (List.filter has_text spans))
      by (apply filter_In; by rewrite <- list_elem_of_In).
    destruct (List.filter has_text spans); [done | discriminate].
Qed.

Lemma extract_line_Some (k : nat) (spans : layout_line) (l : line) :
  extract_line k spans = Some l ↔
    (∃ sp, sp ∈ spans ∧ has_text sp = true)
    ∧ l = {| text := clean (join_sp (map span_text (List.filter has_text spans)));
             size := max_size (span_size (default blank_span (head spans)))
                              (map span_size (tail spans));
             bold := existsb is_bold spans;
             page := Z.of_nat k + 1 |}.
Proof.
  rewrite <- text_parts_nonempty. unfold extract_line.
  destruct spans as [|sp sps].
  - split; [done | by intros [? _]].
  - destruct (map span_text (List.filter has_text (sp :: sps))) as [|t ts] eqn:E.
    + split; [done | by intros [? _]].
    + simpl. split; [by intros [= <-] | by intros [_ ->]].
Qed.

(** X3.  A layout line gives a run exactly when one of its spans holds a
    character that is not white space; the text of the run is then
    normalized and not empty, and its page is the page index plus one. *)
Theorem extract_line_inked (k : nat) (spans : layout_line) :
  (is_Some (extract_line k spans)
   ↔ ∃ sp a c b, sp ∈ spans ∧ span_text sp = a +:+ String c b
                 ∧ is_space c = false)
  ∧ ∀ l, extract_line k spans = Some l →
         clean (text l) = text l ∧ text l ≠ "" ∧ page l = Z.of_nat k + 1.
Proof.
  split.
  - split.
    + intros [l Hl]. apply extract_line_Some in Hl as [(sp & Hin & Ht) _].
      apply has_text_ink, has_ink_spec in Ht as (a & c & b & Ht & Hc).
      by exists sp, a, c, b.
    + intros (sp & a & c & b & Hin & Ht & Hc). eexists.
      apply extract_line_Some. split; [|done]. exists sp. split; [done|].
      apply has_text_ink, has_ink_spec. by exists a, c, b.
  - intros l Hl. apply extract_line_Some in Hl as [Hsp ->]. simpl.
    split; [apply normalized_clean|]. split; [|done].
    apply clean_nonempty_ink.
    apply text_parts_nonempty in Hsp.
    destruct (List.filter has_text spans) as [|sp k'] eqn:E; [done|].
    simpl. apply has_ink_join_head, has_text_ink.
    assert (Hin : In sp (List.filter has_text spans)) by (rewrite E; by left).
    by apply filter_In in Hin as [_ ?].
Qed.

Lemma max_size_spec (x : Q) (xs : list Q) :
  (x <= max_size x xs)%Q
  ∧ (∀ y, y ∈ xs → (y <= max_size x xs)%Q)
  ∧ (max_size x xs = x ∨ max_size x xs ∈ xs).
Proof.
  unfold max_size. revert x. induction xs as [|y xs IH]; intros x; simpl.
  - split; [apply Qle_refl|]. split; [by intros y ?%elem_of_nil | by left].
  - destruct (Qle_bool y x) eqn:E.
    + apply Qle_bool_iff in E. destruct (IH x) as (H1 & H2 & H3).
      split; [done|]. split.
      * intros z [->|Hz]%elem_of_cons; [by apply (Qle_trans _ x) | by apply H2].
      * destruct H3 as [H3|H3]; [by left | right; apply elem_of_cons; by right].
    + assert (Hxy : (x <= y)%Q).
      { apply Qlt_le_weak, Qnot_le_lt. intros H%Qle_bool_iff. congruence. }
      destruct (IH y) as (H1 & H2 & H3). split; [by apply (Qle_trans _ y)|].
      split.
      * intros z [->|Hz]%elem_of_cons; [done | by apply H2].
      * right. apply elem_of_cons. destruct H3 as [->|H3]; [by left | by right].
Qed.

Lemma land_16_testbit (f : Z) : (Z.land f 16 =? 0) = negb (Z.testbit f 4).
Proof.
  assert (H : Z.land f 16 = if Z.testbit f 4 then 16 else 0).
  { apply Z.bits_inj'. intros n Hn. rewrite Z.land_spec.
    change 16 with (2 ^ 4). rewrite Z.pow2_bits_eqb by lia.
    destruct (Z.eqb_spec 4 n) as [<-|Hne].
    - destruct (Z.testbit f 4); [|by rewrite Z.bits_0].
      by rewrite Z.pow2_bits_eqb, Z.eqb_refl by lia.
    - rewrite andb_false_r. destruct (Z.testbit f 4); [|by rewrite Z.bits_0].
      rewrite Z.pow2_bits_eqb by lia. symmetry. by apply Z.eqb_neq. }
  rewrite H. by destruct (Z.testbit f 4).
Qed.

(** X4.  The size of a run is the greatest size among all the spans of its
    layout line, spans without text included, and it is the size of one of
    them; the run is bold exactly when some span has bit 4 (the value 16)
    set in its flags. *)
Theorem extract_line_size_bold (k : nat) (spans : layout_line) (l : line) :
  extract_line k spans = Some l →
  (∀ sp, sp ∈ spans → (span_size sp <= size l)%Q)
  ∧ (∃ sp, sp ∈ spans ∧ size l = span_size sp)
  ∧ (bold l = true ↔ ∃ sp, sp ∈ spans ∧ Z.testbit (span_flags sp) 4 = true).
Proof.
  intros Hl. apply extract_line_Some in Hl as [(sp0 & Hin0 & _) ->]. simpl.
  destruct spans as [|sp sps]; [by apply elem_of_nil in Hin0|]. simpl.
  destruct (max_size_spec (span_size sp) (map span_size sps)) as (H1 & H2 & H3).
  split; [|split].
  - intros sp' [->|Hin]%elem_of_cons; [done|]. apply H2.
    change (map span_size sps) with (span_size <$> sps). by apply list_elem_of_fmap_2.
  - destruct H3 as [H3|H3].
    + exists sp. split; [apply elem_of_cons; by left | done].
    + change (map span_size sps) with (span_size <$> sps) in H3.
      apply list_elem_of_fmap in H3 as (sp' & Heq & Hin).
      exists sp'. split; [apply elem_of_cons; by right | done].
  - change (is_bold sp || existsb is_bold sps) with (existsb is_bold (sp :: sps)).
    rewrite existsb_exists. split.
    + intros (x & Hx & Hb). exists x. split; [by apply list_elem_of_In|].
      unfold is_bold in Hb. rewrite land_16_testbit, negb_involutive in Hb. done.
    + intros (x & Hx & Hb). exists x. split; [by apply list_elem_of_In|].
      unfold is_bold. by rewrite land_16_testbit, negb_involutive.
Qed.

Lemma extract_line_size_bold_witness :
  (∀ sp, sp ∈ [ {| span_text := "Plain words of the text"; span_size := 11 # 1;
                   span_flags := 4 |}; blank_span ] →
         (span_size sp <= size (Line "Plain words of the text" (30 # 1) false 2))%Q)
  ∧ (∃ sp, sp ∈ [ {| span_text := "Plain words of the text"; span_size := 11 # 1;
                     span_flags := 4 |}; blank_span ]
           ∧ size (Line "Plain words of the text" (30 # 1) false 2) = span_size sp)
  ∧ (bold (Line "Plain words of the text" (30 # 1) false 2) = true
     ↔ ∃ sp, sp ∈ [ {| span_text := "Plain words of the text"; span_size := 11 # 1;
                       span_flags := 4 |}; blank_span ]
             ∧ Z.testbit (span_flags sp) 4 = true).
Proof.
  apply (extract_line_size_bold 1).
  by vm_compute.
Defined.

Lemma elem_of_page_lines (k : nat) (p : pdf_page) (l : line) :
  l ∈ page_lines k p ↔
    ∃ ls spans, Some ls ∈ p ∧ spans ∈ ls ∧ extract_line k spans = Some l.
Proof.
  unfold page_lines. rewrite list_elem_of_In, in_concat. split.
  - intros (bl & Hbl & Hl). apply in_map_iff in Hbl as (b & <- & Hb).
    destruct b as [ls|]; [|done]. simpl in Hl.
    apply list_elem_of_In, list_elem_of_omap in Hl as (spans & Hs & He).
    exists ls, spans. split; [by apply list_elem_of_In | done].
  - intros (ls & spans & Hb & Hs & He). exists (block_lines k (Some ls)). split.
    + apply in_map. by apply list_elem_of_In.
    + simpl. apply list_elem_of_In, list_elem_of_omap. by exists spans.
Qed.

Lemma elem_of_pages_lines (n : nat) (pages : list pdf_page) (l : line) :
  l ∈ pages_lines n pages ↔
    ∃ i p ls spans, pages !! i = Some p ∧ Some ls ∈ p ∧ spans ∈ ls
                    ∧ extract_line (n + i) spans = Some l.
Proof.
  revert n. induction pages as [|p pages IH]; intros n; simpl.
  - split; [by intros ?%elem_of_nil | by intros (i & ? & ? & ? & ? & _)].
  - rewrite elem_of_app, elem_of_page_lines, IH. split.
    + intros [(ls & spans & Hb & Hs & He)|(i & q & ls & spans & Hi & Hb & Hs & He)].
      * exists 0%nat, p, ls, spans. by rewrite Nat.add_0_r.
      * exists (S i), q, ls, spans. by rewrite Nat.add_succ_r.
    + intros (i & q & ls & spans & Hi & Hb & Hs & He). destruct i as [|i].
      * simpl in Hi. injection Hi as <-. rewrite Nat.add_0_r in He.
        left. by exists ls, spans.
      * simpl in Hi. rewrite Nat.add_succ_r in He.
        right. by exists i, q, ls, spans.
Qed.

Lemma collected_line_origin (doc : document) (l : line) :
  l ∈ collect_lines doc →
  ∃ i spans, (i < length doc)%nat ∧ extract_line i spans = Some l.
Proof.
  intros (i & p & ls & spans & Hi & _ & _ & He)%elem_of_pages_lines.
  exists i, spans. split; [by eapply lookup_lt_Some | done].
Qed.

Lemma extract_line_text (k : nat) (spans : layout_line) (l : line) :
  extract_line k spans = Some l → normalized (text l) ∧ text l ≠ "".
Proof.
  intros Hl. apply extract_line_Some in Hl as [Hsp ->]. simpl.
  split; [apply normalized_clean|]. apply clean_nonempty_ink.
  apply text_parts_nonempty in Hsp.
  destruct (List.filter has_text spans) as [|sp k'] eqn:E; [done|].
  simpl. apply has_ink_join_head, has_text_ink.
  assert (Hin : In sp (List.filter has_text spans)) by (rewrite E; by left).
  by apply filter_In in Hin as [_ ?].
Qed.

Lemma collected_normalized (doc : document) :
  Forall (fun l => normalized (text l) ∧ text l ≠ "") (collect_lines doc).
Proof.
  apply Forall_forall. intros l (i & spans & _ & He)%collected_line_origin.
  by apply (extract_line_text i spans).
Qed.

Lemma page_lines_page (k : nat) (p : pdf_page) (l : line) :
  l ∈ page_lines k p → page l = Z.of_nat k + 1.
Proof.
  intros (ls & spans & _ & _ & He)%elem_of_page_lines.
  by apply extract_line_Some in He as [_ ->].
Qed.

Lemma StronglySorted_same (c : Z) (l : list Z) :
  Forall (fun x => x = c) l → StronglySorted Z.le l.
Proof.
  induction 1 as [|x l -> Hl IH]; constructor; [done|].
  eapply Forall_impl; [exact Hl|]. intros y ->. lia.
Qed.

Lemma pages_lines_pages (n : nat) (pages : list pdf_page) :
  StronglySorted Z.le (page <$> pages_lines n pages)
  ∧ Forall (fun l => Z.of_nat n + 1 ≤ page l
                     ∧ page l ≤ Z.of_nat n + Z.of_nat (length pages))
           (pages_lines n pages).
Proof.
  revert n. induction pages as [|p pages IH]; intros n; simpl.
  - split; constructor.
  - destruct (IH (S n)) as [Hs Hb]. rewrite Forall_forall in Hb.
    assert (Hp : Forall (fun x => x = Z.of_nat n + 1) (page <$> page_lines n p)).
    { apply Forall_fmap, Forall_forall. intros l Hl. by apply page_lines_page in Hl. }
    split.
    + rewrite fmap_app. apply StronglySorted_app. split; [|split].
      * intros x1 x2 Hx1 (l2 & -> & Hl2)%list_elem_of_fmap.
        rewrite Forall_forall in Hp. rewrite (Hp x1 Hx1).
        destruct (Hb l2 Hl2). lia.
      * by apply (StronglySorted_same (Z.of_nat n + 1)).
      * done.
    + apply Forall_app. split; apply Forall_forall; intros l Hl.
      * apply page_lines_page in Hl. lia.
      * destruct (Hb l Hl). lia.
Qed.

Lemma outline_pages_strongly_sorted (all_lines : list line) :
  StronglySorted Z.le (page <$> all_lines) →
  StronglySorted Z.le (e_page <$> outline (extract_outline all_lines)).
Proof.
  intros Hs. eapply StronglySorted_sublist; [|exact Hs].
  transitivity (e_page <$> omap (heading_of (analyze_fonts all_lines)) all_lines).
  - rewrite outline_scan. apply fmap_sublist, outline_sublist.
  - apply contributed_pages_sublist.
Qed.

(** X5.  For every document the runs are collected in page order, every run
    carries a page between 1 and the number of pages, and so do the
    entries of the outline, whose pages never decrease either. *)
Theorem pdf_pages_in_order (doc : document) :
  Sorted Z.le (map page (collect_lines doc))
  ∧ (∀ l, l ∈ collect_lines doc → 1 ≤ page l ≤ Z.of_nat (length doc))
  ∧ Sorted Z.le (map e_page (outline (extract_outline_pdf doc)))
  ∧ (∀ e, e ∈ outline (extract_outline_pdf doc) →
          1 ≤ e_page e ≤ Z.of_nat (length doc)).
Proof.
  destruct (pages_lines_pages 0 doc) as [Hs Hb]. fold (collect_lines doc) in Hs, Hb.
  rewrite Forall_forall in Hb.
  split; [by apply StronglySorted_Sorted|].
  split; [intros l Hl; destruct (Hb l Hl); lia|].
  split.
  - by apply StronglySorted_Sorted, outline_pages_strongly_sorted.
  - intros e He. unfold extract_outline_pdf in He. rewrite outline_scan in He.
    apply outline_entry_origin in He as (l & Hl & He).
    apply heading_of_Some in He as (_ & -> & _). destruct (Hb l Hl). lia.
Qed.

Lemma collect_lines_nil (doc : document) :
  (∀ p ls spans sp, p ∈ doc → Some ls ∈ p → spans ∈ ls → sp ∈ spans →
                    clean (span_text sp) = "") →
  collect_lines doc = [].
Proof.
  intros H. destruct (collect_lines doc) as [|l k] eqn:E; [done|]. exfalso.
  assert (Hl : l ∈ collect_lines doc) by (rewrite E; apply elem_of_cons; by left).
  apply elem_of_pages_lines in Hl as (i & p & ls & spans & Hi & Hb & Hs & He).
  apply extract_line_Some in He as [(sp & Hsp & Ht) _].
  apply has_text_ink, clean_nonempty_ink in Ht. apply Ht.
  apply (H p ls spans sp); [by eapply list_elem_of_lookup_2 | done..].
Qed.

(** X6.  A document in which no span holds anything but white space (no pages,
    empty pages, blocks without lines, lines without spans) gives the
    title "Untitled" and an empty outline. *)
Theorem blank_document_untitled (doc : document) :
  (∀ p ls spans sp, p ∈ doc → Some ls ∈ p → spans ∈ ls → sp ∈ spans →
                    clean (span_text sp) = "") →
  extract_outline_pdf doc = {| title := "Untitled"; outline := [] |}.
Proof.
  intros H. unfold extract_outline_pdf. by rewrite (collect_lines_nil doc H).
Qed.

Lemma blank_document_untitled_witness :
  extract_outline_pdf blank_document = {| title := "Untitled"; outline := [] |}.
Proof.
  apply blank_document_untitled.
  intros p ls spans sp Hp Hb Hs Hsp. vm_compute in Hp.
  repeat (apply elem_of_cons in Hp as [-> | Hp]);
    [| by apply elem_of_nil in Hb | by apply elem_of_nil in Hp].
  repeat (apply elem_of_cons in Hb as [Hb | Hb]);
    [discriminate | injection Hb as -> | by apply elem_of_nil in Hb].
  repeat (apply elem_of_cons in Hs as [-> | Hs]);
    [| by apply elem_of_nil in Hsp | by apply elem_of_nil in Hs].
  apply elem_of_cons in Hsp as [-> | Hsp]; [done | by apply elem_of_nil in Hsp].
Defined.

(** ** The title, again *)

(** X7.  Whatever the runs are, the title is not empty and is normalized: it is
    either a cleaned text or the word "Untitled". *)
Theorem title_nonempty_normalized (all_lines : list line) :
  title (extract_outline all_lines) ≠ ""
  ∧ clean (title (extract_outline all_lines)) = title (extract_outline all_lines).
Proof.
  unfold extract_outline. cbn [title].
  destruct (String.eqb _ "") eqn:E.
  - split; [done | reflexivity].
  - split; [by apply String.eqb_neq | apply normalized_clean].
Qed.

Lemma title_of_normalized (all_lines : list line) :
  Forall (fun l => normalized (text l) ∧ text l ≠ "") all_lines →
  title (extract_outline all_lines)
  = match page1_large (analyze_fonts all_lines) all_lines with
    | [] => "Untitled"
    | cands => join_sp (map text cands)
    end.
Proof.
  intros Hn.
  assert (Hc : Forall (fun l => normalized (text l) ∧ text l ≠ "")
                 (page1_large (analyze_fonts all_lines) all_lines)).
  { apply Forall_forall. intros l Hl. rewrite Forall_forall in Hn. apply Hn.
    unfold page1_large in Hl.
    apply (sublist_subseteq _ _ (sublist_take _ _)) in Hl.
    apply list_elem_of_In, filter_In in Hl as [Hl _]. by apply list_elem_of_In. }
  unfold extract_outline. cbn [title].
  destruct (page1_large (analyze_fonts all_lines) all_lines) as [|c cs] eqn:E;
    [done|].
  assert (Ht : Forall (fun t => normalized t ∧ t ≠ "") (map text (c :: cs))).
  { change (map text (c :: cs)) with (text <$> (c :: cs)). by apply Forall_fmap. }
  rewrite (join_sp_nonempty _ Ht) by done.
  by destruct (normalized_join _ Ht) as [-> _].
Qed.

Lemma len_append (a b : string) : len (a +:+ b) = (len a + len b)%nat.
Proof. unfold len. induction a; simpl; congruence. Qed.

Lemma len_join_sp (ts : list string) :
  Forall (fun t => (len t ≤ 100)%nat) ts →
  (len (join_sp ts) ≤ 101 * length ts - 1)%nat.
Proof.
  induction 1 as [|t ts Ht Hts IH]; [done|].
  destruct ts as [|u ts]; [simpl; lia|].
  rewrite join_sp_cons, !len_append. simpl length in *.
  change (len " ") with 1%nat. lia.
Qed.

Lemma not_body_len (t : string) :
  is_body_text t = false → (len (strip t) ≤ 100)%nat.
Proof.
  unfold is_body_text. destruct (Nat.ltb_spec 100 (len (strip t))); [done | lia].
Qed.

(** X8.  For every document the title is the single-blank join of the texts of
    the first three page-1 runs that reach the medium size and pass the
    body-text filter, or "Untitled" when there is none; it is never longer
    than 302 characters. *)
Theorem pdf_title (doc : document) :
  title (extract_outline_pdf doc)
  = match first_three_candidates (analyze_fonts (collect_lines doc))
            (collect_lines doc) with
    | [] => "Untitled"
    | cands => join_sp (map text cands)
    end
  ∧ (len (title (extract_outline_pdf doc)) ≤ 302)%nat.
Proof.
  pose proof (collected_normalized doc) as Hn.
  assert (Hn1 : Forall (fun l => normalized (text l)) (collect_lines doc))
    by (eapply Forall_impl; [exact Hn | by intros l [? _]]).
  unfold extract_outline_pdf. rewrite (title_of_normalized _ Hn).
  rewrite <- (page1_large_candidates _ Hn1). split; [done|].
  destruct (page1_large _ _) as [|c cs] eqn:E; [vm_compute; lia|].
  rewrite <- E.
  assert (Hlen : (length (page1_large (analyze_fonts (collect_lines doc))
                            (collect_lines doc)) ≤ 3)%nat).
  { unfold page1_large. rewrite length_take. lia. }
  etransitivity; [apply len_join_sp|].
  - change (map text ?l) with (text <$> l). apply Forall_fmap, Forall_forall.
    intros l Hl. unfold page1_large in Hl.
    apply (sublist_subseteq _ _ (sublist_take _ _)) in Hl.
    apply list_elem_of_In, filter_In in Hl as [Hl Hc].
    unfold title_candidate in Hc.
    apply andb_true_iff in Hc as [_ Hb%negb_true_iff].
    apply not_body_len in Hb. rewrite Forall_forall in Hn1.
    rewrite strip_id in Hb; [done|].
    apply normalized_inv, Hn1. by apply list_elem_of_In.
  - rewrite length_map. lia.
Qed.

(** X9.  A run belongs to [all_lines] exactly when it is the run of a layout
    line of some block that has lines, on the page with that index; blocks
    without lines and layout lines without inked spans leave nothing. *)
Theorem collect_lines_elem (doc : document) (l : line) :
  l ∈ collect_lines doc ↔
    ∃ (i : nat) (p : pdf_page) (ls : list layout_line) (spans : layout_line),
      doc !! i = Some p ∧ Some ls ∈ p ∧ spans ∈ ls
      ∧ extract_line i spans = Some l.
Proof. apply (elem_of_pages_lines 0). Qed.

(** ** The entries *)

Lemma scan_seen_grows (fs : font_stats) (ls : list line) (st : scan_state)
    (t : string) :
  t ∈ st.2 → t ∈ (scan fs ls st).2.
Proof.
  revert st. induction ls as [|l ls IH]; intros st Ht; [done|].
  rewrite scan_cons. apply IH. rewrite scan_step_heading.
  destruct (heading_of fs l) as [e|]; [|done].
  destruct (bool_decide _); [done|]. simpl. apply elem_of_union. by right.
Qed.

Lemma scan_seen_contributed (fs : font_stats) (ls : list line) (st : scan_state)
    (r : line) (e : entry) :
  r ∈ ls → heading_of fs r = Some e → e_text e ∈ (scan fs ls st).2.
Proof.
  revert st. induction ls as [|l ls IH]; intros st Hr He;
    [by apply elem_of_nil in Hr|].
  rewrite scan_cons. apply elem_of_cons in Hr as [<-|Hr]; [|by apply IH].
  apply scan_seen_grows. rewrite scan_step_heading, He.
  destruct (bool_decide_reflect (e_text e ∈ st.2)); [done|].
  simpl. apply elem_of_union. left. by apply elem_of_singleton.
Qed.

Lemma scan_all_seen (fs : font_stats) (ls : list line) (st : scan_state) :
  (∀ r e, r ∈ ls → heading_of fs r = Some e → e_text e ∈ st.2) →
  scan fs ls st = st.
Proof.
  revert st. induction ls as [|l ls IH]; intros st H; [done|].
  rewrite scan_cons.
  assert (scan_step fs st l = st) as ->.
  { rewrite scan_step_heading. destruct (heading_of fs l) as [e|] eqn:He; [|done].
    rewrite bool_decide_eq_true_2; [done|].
    apply (H l e); [apply elem_of_cons; by left | done]. }
  apply IH. intros r e Hr. apply H, elem_of_cons. by right.
Qed.

(** X10.  Scanning the same runs a second time, under the same font profile,
    adds no entry and no seen text: the loop is idempotent. *)
Theorem scan_twice (fs : font_stats) (ls : list line) (st : scan_state) :
  scan fs (ls ++ ls) st = scan fs ls st.
Proof.
  rewrite scan_app. apply scan_all_seen.
  intros r e Hr He. by apply (scan_seen_contributed fs ls st r e).
Qed.

(** X11.  Every entry of the outline comes from a run of the input: its text is
    the run's normalized text, has between 4 and 100 characters, is
    accepted by [is_structural_heading] and not by [is_body_text]; its
    page is the run's page and its level is the one [get_heading_level]
    gives for the run's size. *)
Theorem entry_provenance (all_lines : list line) (e : entry) :
  e ∈ outline (extract_outline all_lines) →
  ∃ l, l ∈ all_lines
       ∧ e_text e = clean (text l) ∧ e_page e = page l
       ∧ get_heading_level (e_text e) (size l) (analyze_fonts all_lines)
         = Some (e_level e)
       ∧ (4 ≤ len (e_text e) ≤ 100)%nat
       ∧ clean (e_text e) = e_text e
       ∧ is_structural_heading (e_text e) = true
       ∧ is_body_text (e_text e) = false.
Proof.
  rewrite outline_scan. intros (l & Hl & He)%outline_entry_origin.
  apply heading_of_Some in He as (Ht & Hp & Hlen & Hb & Hs & Hlv).
  exists l. rewrite Ht. repeat split; try done.
  - apply not_body_len in Hb. by rewrite strip_clean in Hb.
  - apply normalized_clean.
Qed.

Lemma entry_provenance_witness :
  ∃ l, l ∈ three_page_lines
       ∧ e_text (Entry H3 "1. Introduction" 2) = clean (text l)
       ∧ e_page (Entry H3 "1. Introduction" 2) = page l
       ∧ get_heading_level (e_text (Entry H3 "1. Introduction" 2)) (size l)
           (analyze_fonts three_page_lines)
         = Some (e_level (Entry H3 "1. Introduction" 2))
       ∧ (4 ≤ len (e_text (Entry H3 "1. Introduction" 2)) ≤ 100)%nat
       ∧ clean (e_text (Entry H3 "1. Introduction" 2))
         = e_text (Entry H3 "1. Introduction" 2)
       ∧ is_structural_heading (e_text (Entry H3 "1. Introduction" 2)) = true
       ∧ is_body_text (e_text (Entry H3 "1. Introduction" 2)) = false.
Proof.
  apply (entry_provenance three_page_lines).
  vm_compute. apply elem_of_cons. right. apply elem_of_cons. by left.
Defined.

(** X12.  The entries are taken in document order from what the runs
    contribute, so the outline never has more entries than there are
    runs. *)
Theorem outline_in_document_order (all_lines : list line) :
  outline (extract_outline all_lines)
    `sublist_of` omap (heading_of (analyze_fonts all_lines)) all_lines
  ∧ (length (outline (extract_outline all_lines)) ≤ length all_lines)%nat.
Proof.
  rewrite outline_scan. split; [apply outline_sublist|].
  etransitivity; [apply sublist_length, outline_sublist|].
  generalize (analyze_fonts all_lines). intros fs.
  induction all_lines as [|l ls IH]; [done|].
  change (omap (heading_of fs) (l :: ls))
    with (match heading_of fs l with
          | Some e => e :: omap (heading_of fs) ls
          | None => omap (heading_of fs) ls
          end).
  destruct (heading_of fs l); cbn [length]; lia.
Qed.

(** X13.  A run that passes the three gates of the loop and whose size reaches
    the medium or the large size is never lost: the outline has an entry
    with its normalized text. *)
Theorem gated_run_at_medium_kept (all_lines : list line) (r : line) :
  r ∈ all_lines →
  (4 ≤ len (clean (text r)))%nat →
  is_body_text (clean (text r)) = false →
  is_structural_heading (clean (text r)) = true →
  (medium_size (analyze_fonts all_lines) <= size r)%Q
  ∨ (large_size (analyze_fonts all_lines) <= size r)%Q →
  ∃ e, e ∈ outline (extract_outline all_lines) ∧ e_text e = clean (text r).
Proof.
  intros Hr Hlen Hb Hs Hsize. set (fs := analyze_fonts all_lines) in *.
  destruct (get_heading_level (clean (text r)) (size r) fs) as [lv|] eqn:Hlv.
  - rewrite outline_scan.
    apply (contributed_text_kept fs all_lines r
             {| e_level := lv; e_text := clean (text r); e_page := page r |});
      [done|].
    apply heading_of_Some. by repeat split.
  - exfalso. pose proof (get_heading_level_sound (clean (text r)) (size r) fs) as H.
    rewrite Hlv in H. inversion H. tauto.
Qed.

Lemma gated_run_at_medium_kept_witness :
  ∃ e, e ∈ outline (extract_outline road_map_lines)
       ∧ e_text e = clean (text (run "Road Map to Prosperity" (14 # 1) 2)).
Proof.
  apply (gated_run_at_medium_kept road_map_lines
           (run "Road Map to Prosperity" (14 # 1) 2)).
  - vm_compute. do 4 (apply elem_of_cons; right). apply elem_of_cons. by left.
  - vm_compute. lia.
  - by vm_compute.
  - by vm_compute.
  - left. by vm_compute.
Defined.

(** X14.  The body size of the font profile is never consulted: two profiles
    with the same large and medium sizes give the same levels, the same
    loop and the same title candidates. *)
Theorem body_size_unused (fs fs' : font_stats) :
  large_size fs = large_size fs' →
  medium_size fs = medium_size fs' →
  (∀ t s, get_heading_level t s fs = get_heading_level t s fs')
  ∧ (∀ ls st, scan fs ls st = scan fs' ls st)
  ∧ (∀ ls, page1_large fs ls = page1_large fs' ls).
Proof.
  intros Hl Hm.
  assert (Hg : ∀ t s, get_heading_level t s fs = get_heading_level t s fs').
  { intros t s. unfold get_heading_level. by rewrite Hl, Hm. }
  split; [done|]. split.
  - intros ls. induction ls as [|l ls IH]; intros st; [done|].
    rewrite !scan_cons, <- IH. f_equal. unfold scan_step. by rewrite Hg.
  - intros ls. unfold page1_large. f_equal.
    induction ls as [|l ls IH]; [done|]. simpl.
    unfold title_candidate at 1 3. rewrite Hm, IH. done.
Qed.

Lemma body_size_unused_witness :
  (∀ t s, get_heading_level t s default_profile
          = get_heading_level t s (FontStats (14 # 1) (12 # 1) (3 # 1)))
  ∧ (∀ ls st, scan default_profile ls st
              = scan (FontStats (14 # 1) (12 # 1) (3 # 1)) ls st)
  ∧ (∀ ls, page1_large default_profile ls
           = page1_large (FontStats (14 # 1) (12 # 1) (3 # 1)) ls).
Proof.
  apply body_size_unused; reflexivity.
Defined.

(** ** The font profile, again *)

Lemma occurrences_perm (q : Q) (s1 s2 : list Q) :
  s1 ≡ₚ s2 → occurrences q s1 = occurrences q s2.
Proof. intros H. unfold occurrences. by rewrite H. Qed.

Lemma count_sizes_perm (s1 s2 : list Q) :
  s1 ≡ₚ s2 → count_sizes s1 ≡ₚ count_sizes s2.
Proof.
  intros H.
  destruct (count_sizes_spec s1) as (Hn1 & _ & He1).
  destruct (count_sizes_spec s2) as (Hn2 & _ & He2).
  apply NoDup_Permutation; [by eapply NoDup_fmap_1 | by eapply NoDup_fmap_1 |].
  intros [q c]. rewrite He1, He2, (occurrences_perm q s1 s2 H).
  by rewrite H.
Qed.

Lemma ranks_before_antisym (x y : Q * Z) :
  tenth x.1 → tenth y.1 → ranks_before x y → ranks_before y x → x = y.
Proof.
  intros Hx Hy [H1|[H1 H1']] [H2|[H2 H2']]; try lia.
  destruct x as [qx cx], y as [qy cy]. simpl in *. f_equal; [|lia].
  apply tenth_eq; [done..|]. apply Qeq_bool_iff. by apply Qle_antisym.
Qed.

Lemma ranking_perm (s1 s2 : list Q) :
  s1 ≡ₚ s2 →
  sorted_by_key (count_sizes s1) = sorted_by_key (count_sizes s2).
Proof.
  intros H.
  destruct (count_sizes_spec s1) as (_ & Ht1 & _).
  destruct (count_sizes_spec s2) as (_ & Ht2 & _).
  rewrite Forall_forall in Ht1, Ht2.
  apply (StronglySorted_unique_strong ranks_before).
  - intros x1 x2 Hx1 Hx2. apply ranks_before_antisym.
    + apply Ht1. rewrite sorted_by_key_perm in Hx1. by apply list_elem_of_fmap_2.
    + apply Ht2. rewrite sorted_by_key_perm in Hx2. by apply list_elem_of_fmap_2.
  - apply sorted_by_key_sorted.
  - apply sorted_by_key_sorted.
  - rewrite !sorted_by_key_perm. by apply count_sizes_perm.
Qed.

(** X15.  The font profile does not depend on the order of the runs: any
    rearrangement of the stream gives the same three sizes. *)
Theorem analyze_fonts_order_free (lines1 lines2 : list line) :
  lines1 ≡ₚ lines2 → analyze_fonts lines1 = analyze_fonts lines2.
Proof.
  intros H. unfold analyze_fonts.
  rewrite (ranking_perm (map size lines1) (map size lines2)); [done|].
  change (size <$> lines1 ≡ₚ size <$> lines2). by rewrite H.
Qed.

Lemma analyze_fonts_order_free_witness :
  analyze_fonts three_page_lines = analyze_fonts (reverse three_page_lines).
Proof.
  apply analyze_fonts_order_free.
  symmetry. apply reverse_Permutation.
Defined.

(** X16.  For a non-empty stream the large size is a most frequent rounded
    size, and the greatest of the most frequent ones: no rounded size of a
    run occurs more often, and one that occurs as often is not greater. *)
Theorem large_size_most_frequent (all_lines : list line) :
  all_lines ≠ [] →
  large_size (analyze_fonts all_lines) ∈ round1 <$> map size all_lines
  ∧ ∀ l, l ∈ all_lines →
      occurrences (round1 (size l)) (map size all_lines)
        < occurrences (large_size (analyze_fonts all_lines)) (map size all_lines)
      ∨ (occurrences (round1 (size l)) (map size all_lines)
           = occurrences (large_size (analyze_fonts all_lines)) (map size all_lines)
         ∧ (round1 (size l) <= large_size (analyze_fonts all_lines))%Q).
Proof.
  intros Hne. unfold analyze_fonts. cbn [large_size]. rewrite tier_lookup.
  set (sizes := map size all_lines).
  destruct (count_sizes_spec sizes) as (_ & _ & Hel).
  pose proof (sorted_by_key_perm (count_sizes sizes)) as Hp.
  pose proof (sorted_by_key_sorted (count_sizes sizes)) as Hs.
  assert (Hin : ∀ l, l ∈ all_lines →
            (round1 (size l), occurrences (round1 (size l)) sizes)
              ∈ sorted_by_key (count_sizes sizes)).
  { intros l Hl. rewrite Hp. apply Hel. split; [|done].
    apply list_elem_of_fmap_2. by apply (list_elem_of_fmap_2 size). }
  destruct (sorted_by_key (count_sizes sizes)) as [|x rest] eqn:E.
  { destruct all_lines as [|l ?]; [done|].
    specialize (Hin l ltac:(apply elem_of_cons; by left)). by apply elem_of_nil in Hin. }
  simpl.
  assert (Hx : x ∈ count_sizes sizes) by (rewrite <- Hp; apply elem_of_cons; by left).
  destruct x as [q c]. apply Hel in Hx as [Hq ->]. simpl. split; [done|].
  intros l Hl. apply StronglySorted_cons in Hs as [Hall _].
  rewrite Forall_forall in Hall.
  specialize (Hin l Hl). apply elem_of_cons in Hin as [Heq|Hin].
  - injection Heq as -> _. right. split; [done | apply Qle_refl].
  - destruct (Hall _ Hin) as [H|[H H']]; simpl in *; [by left | right; by split].
Qed.

Lemma large_size_most_frequent_witness :
  large_size (analyze_fonts road_map_lines) ∈ round1 <$> map size road_map_lines
  ∧ ∀ l, l ∈ road_map_lines →
      occurrences (round1 (size l)) (map size road_map_lines)
        < occurrences (large_size (analyze_fonts road_map_lines))
            (map size road_map_lines)
      ∨ (occurrences (round1 (size l)) (map size road_map_lines)
           = occurrences (large_size (analyze_fonts road_map_lines))
               (map size road_map_lines)
         ∧ (round1 (size l) <= large_size (analyze_fonts road_map_lines))%Q).
Proof.
  apply large_size_most_frequent. discriminate.
Defined.

Lemma ranking_spec (sizes : list Q) :
  NoDup (sorted_by_key (count_sizes sizes)).*1
  ∧ ∀ q, q ∈ (sorted_by_key (count_sizes sizes)).*1 ↔ q ∈ round1 <$> sizes.
Proof.
  pose proof (sorted_by_key_perm (count_sizes sizes)) as Hp.
  pose proof (count_sizes_spec sizes) as Hc.
  split.
  - rewrite Hp. apply Hc.
  - intros q. rewrite Hp. by apply counts_of_key.
Qed.

(** X17.  When the runs show three different rounded sizes, no default is used:
    the large, medium and body sizes are three different rounded sizes of
    runs. *)
Theorem three_sizes_no_default (all_lines : list line) (l1 l2 l3 : line) :
  l1 ∈ all_lines → l2 ∈ all_lines → l3 ∈ all_lines →
  round1 (size l1) ≠ round1 (size l2) →
  round1 (size l1) ≠ round1 (size l3) →
  round1 (size l2) ≠ round1 (size l3) →
  large_size (analyze_fonts all_lines) ∈ round1 <$> map size all_lines
  ∧ medium_size (analyze_fonts all_lines) ∈ round1 <$> map size all_lines
  ∧ body_size (analyze_fonts all_lines) ∈ round1 <$> map size all_lines
  ∧ large_size (analyze_fonts all_lines) ≠ medium_size (analyze_fonts all_lines)
  ∧ large_size (analyze_fonts all_lines) ≠ body_size (analyze_fonts all_lines)
  ∧ medium_size (analyze_fonts all_lines) ≠ body_size (analyze_fonts all_lines).
Proof.
  intros H1 H2 H3 H12 H13 H23. unfold analyze_fonts.
  cbn [large_size medium_size body_size]. rewrite !tier_lookup.
  set (sizes := map size all_lines).
  destruct (ranking_spec sizes) as [Hnd Hkeys].
  set (ranked := sorted_by_key (count_sizes sizes)) in *.
  assert (Hin : ∀ l, l ∈ all_lines → round1 (size l) ∈ ranked.*1).
  { intros l Hl. apply Hkeys, list_elem_of_fmap_2.
    by apply (list_elem_of_fmap_2 size). }
  assert (Hlen : (3 ≤ length ranked)%nat).
  { rewrite <- (length_fmap fst).
    change 3%nat with (length [round1 (size l1); round1 (size l2); round1 (size l3)]).
    apply submseteq_length, NoDup_submseteq.
    - apply NoDup_cons. split.
      { intros [E|[E|E]%elem_of_cons]%elem_of_cons; [done..|].
        by apply elem_of_nil in E. }
      apply NoDup_cons. split; [|apply NoDup_singleton].
      intros E%list_elem_of_singleton. done.
    - intros q Hq. repeat (apply elem_of_cons in Hq as [->|Hq]); [by apply Hin..|].
      by apply elem_of_nil in Hq. }
  destruct (lookup_lt_is_Some_2 ranked 0) as [x0 Hx0]; [lia|].
  destruct (lookup_lt_is_Some_2 ranked 1) as [x1 Hx1]; [lia|].
  destruct (lookup_lt_is_Some_2 ranked 2) as [x2 Hx2]; [lia|].
  rewrite Hx0, Hx1, Hx2. simpl.
  assert (Hk : ∀ i x, ranked !! i = Some x → ranked.*1 !! i = Some x.1)
    by (intros i x Hx; by rewrite list_lookup_fmap, Hx).
  repeat split.
  - apply Hkeys. by eapply list_elem_of_lookup_2, Hk.
  - apply Hkeys. by eapply list_elem_of_lookup_2, Hk.
  - apply Hkeys. by eapply list_elem_of_lookup_2, Hk.
  - intros Heq. assert (0 = 1)%nat; [|done].
    apply (NoDup_lookup _ _ _ x0.1 Hnd); [by apply Hk | rewrite Heq; by apply Hk].
  - intros Heq. assert (0 = 2)%nat; [|done].
    apply (NoDup_lookup _ _ _ x0.1 Hnd); [by apply Hk | rewrite Heq; by apply Hk].
  - intros Heq. assert (1 = 2)%nat; [|done].
    apply (NoDup_lookup _ _ _ x1.1 Hnd); [by apply Hk | rewrite Heq; by apply Hk].
Qed.

Lemma three_sizes_no_default_witness :
  large_size (analyze_fonts road_map_lines) ∈ round1 <$> map size road_map_lines
  ∧ medium_size (analyze_fonts road_map_lines) ∈ round1 <$> map size road_map_lines
  ∧ body_size (analyze_fonts road_map_lines) ∈ round1 <$> map size road_map_lines
  ∧ large_size (analyze_fonts road_map_lines) ≠ medium_size (analyze_fonts road_map_lines)
  ∧ large_size (analyze_fonts road_map_lines) ≠ body_size (analyze_fonts road_map_lines)
  ∧ medium_size (analyze_fonts road_map_lines) ≠ body_size (analyze_fonts road_map_lines).
Proof.
  apply (three_sizes_no_default road_map_lines
           (run "Road Map to Prosperity" (10 # 1) 1)
           (run "An overview of the plan" (12 # 1) 1)
           (run "Closing remarks" (14 # 1) 2)).
  - vm_compute. apply elem_of_cons. by left.
  - vm_compute. apply elem_of_cons. right. apply elem_of_cons. by left.
  - vm_compute. do 5 (apply elem_of_cons; right). apply elem_of_cons. by left.
  - by vm_compute.
  - by vm_compute.
  - by vm_compute.
Defined.

(** ** Levels, again *)

Lemma append_assoc_str (a b c : string) : (a +:+ b) +:+ c = a +:+ b +:+ c.
Proof. induction a; simpl; congruence. Qed.

Lemma Contains_trans (a b c : string) : Contains a b → Contains b c → Contains a c.
Proof.
  intros (x & y & ->) (u & v & ->). exists (u +:+ x), (y +:+ v).
  by rewrite !append_assoc_str.
Qed.

Lemma principle_has_h3_term (p : string) :
  p ∈ principle_patterns → any_in h3_patterns p = true.
Proof.
  unfold principle_patterns. intros Hp.
  repeat (apply elem_of_cons in Hp as [->|Hp]); [by vm_compute..|].
  by apply elem_of_nil in Hp.
Qed.

Lemma principle_any_h3 (t : string) :
  any_in principle_patterns t = true → any_in h3_patterns t = true.
Proof.
  intros (p & Hp & Hc)%any_in_spec.
  apply principle_has_h3_term, any_in_spec in Hp as (p' & Hp' & Hc').
  apply any_in_spec. exists p'. split; [done|]. by apply (Contains_trans _ p).
Qed.

Lemma numbered_number_dot (t : string) :
  re_match re_numbered t = true → re_match re_number_dot t = true.
Proof.
  unfold re_match, re_numbered, re_number_dot, seq.
  destruct (many1 is_digit t) as [r|]; [|done].
  by destruct (lit "." r).
Qed.

Lemma what_could_contains (t : string) :
  startswith "What could the ODL" t = true → any_in h3_patterns t = true.
Proof.
  intros [r ->]%startswith_spec. apply any_in_spec. exists "What could".
  split; [|by exists "", (" the ODL" +:+ r)].
  unfold h3_patterns. do 10 (apply elem_of_cons; right). apply elem_of_cons. by left.
Qed.

(** X18.  A text that is structural by the numbered-section pattern, by a
    principle or service label, as a "For each ...:" question or as a
    "What could the ODL" question is given a level whatever its size and
    whatever the font profile: only the other structural patterns can be
    dropped for their size. *)
Theorem structural_by_content_levelled (t : string) (s : Q) (fs : font_stats) :
  re_match re_numbered (strip t) = true
  ∨ any_in principle_patterns (strip t) = true
  ∨ startswith "For each" (strip t) && endswith ":" (strip t) = true
  ∨ startswith "What could the ODL" (strip t) = true →
  is_structural_heading t = true
  ∧ ∃ lv, get_heading_level t s fs = Some lv.
Proof.
  intros H. split.
  - unfold is_structural_heading.
    destruct (re_match re_main_section _); [done|].
    destruct (re_match re_appendix_phase _); [done|].
    destruct (re_match re_approach _); [done|].
    destruct (re_match re_numbered _); [done|].
    destruct (any_in principle_patterns _); [done|].
    destruct (startswith "For each" _ && endswith ":" _); [done|].
    destruct (contains "Ontario" _ && _ && _); [done|].
    destruct (contains "Critical Component" _ || _); [done|].
    destruct H as [H|[H|[H|H]]]; try done. by rewrite H.
  - unfold get_heading_level.
    destruct (size_ge s (large_size fs) && _); [by eexists|].
    destruct (String.eqb _ "Summary" || _ || _ || _ || _ || _); [by eexists|].
    destruct (startswith "Timeline" _ || _ || _ || _ || _) eqn:E3; [by eexists|].
    destruct (startswith "For each" _ && _) eqn:E4; [by eexists|].
    exfalso. apply orb_false_iff in E3 as [E3 Eh3].
    apply orb_false_iff in E3 as [_ End].
    destruct H as [H|[H|[H|H]]]; [| | done |].
    + apply numbered_number_dot in H. congruence.
    + apply principle_any_h3 in H. congruence.
    + apply what_could_contains in H. congruence.
Qed.

Lemma structural_by_content_levelled_witness :
  is_structural_heading "Training: the first steps" = true
  ∧ ∃ lv, get_heading_level "Training: the first steps" (1 # 1) default_profile
          = Some lv.
Proof.
  apply structural_by_content_levelled.
  right. left. by vm_compute.
Defined.



